(** * MutationServer: the client/transport layer of the Stryker extension

    A shallow embedding of [MutationServer], the class that launches the
    mutation-testing engine, discovers its port on standard output, connects
    a WebSocket, and multiplexes JSON-RPC responses with progress
    notifications.

    The class is event driven.  It is embedded as a transition function
    [step : MutationServer -> Event -> MutationServer * list Effect]:
    - the state holds what the object and the objects it owns hold: the
      listeners registered on stdout and on the socket, the states of the
      promises, the ready state of the socket, the observers of the
      notification subject, the pending map of the RPC client;
    - an [Event] is one thing the host delivers: a chunk on stdout, the exit
      of the process, a socket event, a call of a public method;
    - an [Effect] is one thing the code does while it handles the event: a
      call of the logger, a frame written to the socket, a call of a
      callback, the settling of a request.
    The continuation of an [await] runs as a microtask, before the next event
    is delivered: it belongs to the step that settles the awaited promise.

    What the platform provides ([JSON.parse], [JSON.stringify], [spawn]) and
    the messages of the configuration module are parameters of the class.
    The events of the socket follow the [ws] library, the subject follows
    rxjs, the RPC client follows json-rpc-2.0. *)

From Stdlib Require Import String Ascii List ZArith Bool Lia.
Import ListNotations.
Local Open Scope string_scope.
Local Open Scope Z_scope.
Local Open Scope list_scope.
Set Warnings "-register-all".

(* ================================================================== *)
(** ** JavaScript values *)

(** The values [JSON.parse] can return, and [undefined].  Numbers are the
    integers (ids, ports and tokens are integers in this protocol). *)
Inductive JSValue : Type :=
| JUndefined
| JNull
| JBool (b : bool)
| JNumber (n : Z)
| JString (s : string)
| JArray (items : list JSValue)
| JObject (fields : list (string * JSValue)).

(** [ToBoolean]: what [if (v)] and [!v] test. *)
Definition truthy (v : JSValue) : bool :=
  match v with
  | JUndefined | JNull => false
  | JBool b => b
  | JNumber n => negb (n =? 0)
  | JString s => negb (s =? "")%string
  | JArray _ | JObject _ => true
  end.

(** Own property of an object literal; a key written twice keeps its last
    value, as in [JSON.parse]. *)
Fixpoint lookup_field (name : string) (fields : list (string * JSValue))
  : option JSValue :=
  match fields with
  | [] => None
  | (k, v) :: rest =>
      match lookup_field name rest with
      | Some later => Some later
      | None => if (k =? name)%string then Some v else None
      end
  end.

(** [undefined] and [null]: reading a property of these throws a
    [TypeError]. *)
Definition nullish (v : JSValue) : bool :=
  match v with
  | JUndefined | JNull => true
  | _ => false
  end.

(** [v.name] on a value that is not nullish, for the property names this
    class reads ([id], [method], [params], [token], [value], [result],
    [error], [partialResultToken]): the field on an object, [undefined] when
    the object lacks it and on primitives and arrays. *)
Definition get (v : JSValue) (name : string) : JSValue :=
  match v with
  | JObject fields =>
      match lookup_field name fields with
      | Some x => x
      | None => JUndefined
      end
  | _ => JUndefined
  end.

(** Whether the message carries a field of that name at all. *)
Definition has_field (v : JSValue) (name : string) : bool :=
  match v with
  | JObject fields =>
      match lookup_field name fields with Some _ => true | None => false end
  | _ => false
  end.

(** [a === b].  Arrays and objects are compared by identity: a value that was
    just parsed from a frame is a fresh object, identical to nothing a caller
    holds. *)
Definition strict_eq (a b : JSValue) : bool :=
  match a, b with
  | JUndefined, JUndefined => true
  | JNull, JNull => true
  | JBool x, JBool y => Bool.eqb x y
  | JNumber x, JNumber y => x =? y
  | JString x, JString y => (x =? y)%string
  | _, _ => false
  end.

(* ================================================================== *)
(** ** Text helpers: template literals and the banner pattern *)

Definition digit_char (d : Z) : ascii := ascii_of_nat (48 + Z.to_nat d).

Fixpoint digits_of (fuel : nat) (n : Z) (acc : string) : string :=
  match fuel with
  | O => acc
  | S fuel' =>
      let acc' := String (digit_char (n mod 10)) acc in
      if n / 10 =? 0 then acc' else digits_of fuel' (n / 10) acc'
  end.

(** [n.toString()] of an integer. *)
Definition Number_toString (n : Z) : string :=
  if n <? 0
  then String "-" (digits_of (S (Z.to_nat (Z.log2 (- n)))) (- n) "")
  else digits_of (S (Z.to_nat (Z.log2 n))) n "".

Definition is_digit (c : ascii) : bool :=
  let n := nat_of_ascii c in (48 <=? n)%nat && (n <=? 57)%nat.

(** The text a greedy [\d+] consumes at the head of [s] (empty: no match). *)
Fixpoint leading_digits (s : string) : string :=
  match s with
  | String c rest => if is_digit c then String c (leading_digits rest) else ""
  | EmptyString => ""
  end.

Fixpoint strip_prefix (p s : string) : option string :=
  match p, s with
  | EmptyString, _ => Some s
  | String a p', String b s' => if Ascii.eqb a b then strip_prefix p' s' else None
  | String _ _, EmptyString => None
  end.

Definition banner : string := "Server is listening on port: ".

(** The pattern [Server is listening on port: (\d+)] matched at the very
    start of [s]: its capture group. *)
Definition match_banner (s : string) : option string :=
  match strip_prefix banner s with
  | Some rest =>
      match leading_digits rest with
      | EmptyString => None
      | ds => Some ds
      end
  | None => None
  end.

(** [/Server is listening on port: (\d+)/.exec(s)]: the capture group of the
    leftmost match, [None] for [null]. *)
Fixpoint exec_banner (s : string) : option string :=
  match match_banner s with
  | Some ds => Some ds
  | None =>
      match s with
      | String _ rest => exec_banner rest
      | EmptyString => None
      end
  end.

(** [parseInt(ds, 10)] of a string of decimal digits (exact: a double holds
    every integer below 2^53, far above any port). *)
Definition parseInt (ds : string) : Z :=
  (fix go (s : string) (acc : Z) : Z :=
     match s with
     | String c rest => go rest (10 * acc + (Z.of_nat (nat_of_ascii c) - 48))
     | EmptyString => acc
     end) ds 0.

(* ================================================================== *)
(** ** Promises, the socket, the collaborators *)

Inductive Promise (A : Type) : Type :=
| Pending
| Fulfilled (a : A)
| Rejected (reason : string).
Arguments Pending {A}.
Arguments Fulfilled {A} a.
Arguments Rejected {A} reason.

(** The [resolve] function of a promise: only the first call settles it. *)
Definition resolve {A : Type} (a : A) (p : Promise A) : Promise A :=
  match p with
  | Pending => Fulfilled a
  | settled => settled
  end.

Inductive ReadyState : Type := CONNECTING | OPEN | CLOSING | CLOSED.

Definition ReadyState_eqb (a b : ReadyState) : bool :=
  match a, b with
  | CONNECTING, CONNECTING | OPEN, OPEN | CLOSING, CLOSING | CLOSED, CLOSED => true
  | _, _ => false
  end.

(** What the class does to its collaborators while it handles an event. *)
Inductive Effect : Type :=
| logInfo (message : string)
| logError (message : string)
| errorNotification (message : string)
| new_WebSocket (url : string)
| webSocket_send (text : string)
| resolve_port (port : Z)                 (* a call of [resolve] in [waitForMutationServerStarted] *)
| notification_next (request : JSValue)   (* [notification$Subject.next] *)
| rpcClient_receive (response : JSValue)  (* [rpcClient.receive] *)
| onPartialResult (callback : nat) (partialResult : JSValue)
| request_resolved (id : Z) (result : JSValue)
| request_rejected (id : Z)
| call_rejected (message : string)        (* a public method threw before any request *)
| uncaught (what : string).               (* an exception nobody handles *)

(** The closures registered with [process.stdout.on('data', ...)]. *)
Inductive StdoutListener : Type :=
| LogStdout      (* constructor: forwards the chunk to [logInfo] *)
| ScanForPort.   (* [waitForMutationServerStarted]: scans for the banner *)

(** The [ws] socket: its ready state and its ['open'] listeners.  The only
    ['open'] listeners are those of [waitForOpenSocket]; each resolves one
    promise, named by its index in [sends]. *)
Record WebSocket : Type := mkWebSocket {
  url : string;
  readyState : ReadyState;
  open_listeners : list nat
}.

(** One subscription made by [mutate]: the chain
    [filter(method) . map(params) . filter(token) . map(value)] ending in the
    caller's callback.  It captures [params] and [onPartialResult]. *)
Record Observer : Type := mkObserver {
  obs_params : JSValue;
  obs_callback : nat
}.

(** [JSONRPCClient] of json-rpc-2.0: the id counter and the ids that wait for
    a response. *)
Record JSONRPCClient : Type := mkClient {
  last_id : Z;
  idToResolveMap : list Z
}.

(** One run of the send adapter given to [JSONRPCClient]: the request it was
    called with and the promise of [waitForOpenSocket] it awaits. *)
Record SendTask : Type := mkSendTask {
  jsonRpcRequest : JSValue;
  opened : Promise unit
}.

Record MutationServer : Type := mkServer {
  stdout_listeners : list StdoutListener; (* of [this.process.stdout] *)
  started : Promise Z;                    (* promise of [waitForMutationServerStarted] *)
  webSocket : option WebSocket;
  rpcClient : option JSONRPCClient;
  observers : list Observer;              (* of [notification$Subject] *)
  sends : list SendTask
}.

Definition set_stdout_listeners (l : list StdoutListener) (s : MutationServer) :=
  mkServer l (started s) (webSocket s) (rpcClient s) (observers s) (sends s).
Definition set_started (p : Promise Z) (s : MutationServer) :=
  mkServer (stdout_listeners s) p (webSocket s) (rpcClient s) (observers s) (sends s).
Definition set_webSocket (w : option WebSocket) (s : MutationServer) :=
  mkServer (stdout_listeners s) (started s) w (rpcClient s) (observers s) (sends s).
Definition set_rpcClient (c : option JSONRPCClient) (s : MutationServer) :=
  mkServer (stdout_listeners s) (started s) (webSocket s) c (observers s) (sends s).
Definition set_observers (o : list Observer) (s : MutationServer) :=
  mkServer (stdout_listeners s) (started s) (webSocket s) (rpcClient s) o (sends s).
Definition set_sends (t : list SendTask) (s : MutationServer) :=
  mkServer (stdout_listeners s) (started s) (webSocket s) (rpcClient s) (observers s) t.

(** What the host delivers to the object. *)
Inductive Event : Type :=
| process_exit (code : option Z)
| stdout_data (chunk : string)
| stderr_data (chunk : string)
| socket_open
| socket_close
| socket_error (err : string)
| socket_message (data : string)
| call_instrument (params : JSValue)
| call_mutate (params : JSValue) (callback : nat).

(** The settings and the workspace the constructor reads. *)
Record Workspace : Type := mkWorkspace {
  mutationServerExecutablePath : option string;
  mutationServerPort : option Z;
  workspaceFolders : option (list string)   (* [fsPath] of each folder *)
}.

Inductive Thrown : Type :=
| Error (message : string)
| TypeError.

Inductive Completion (A : Type) : Type :=
| Normal (a : A)
| Throw (e : Thrown).
Arguments Normal {A} a.
Arguments Throw {A} e.

(** Run [f] on every element of [l] in order, threading the state and
    collecting the effects (what [emit] does with the listeners). *)
Fixpoint for_each {A S : Type} (f : S -> A -> S * list Effect) (l : list A) (s : S)
  : S * list Effect :=
  match l with
  | [] => (s, [])
  | a :: rest =>
      let (s1, e1) := f s a in
      let (s2, e2) := for_each f rest s1 in
      (s2, e1 ++ e2)
  end.

Fixpoint update_nth {A : Type} (n : nat) (a : A) (l : list A) : list A :=
  match l, n with
  | [], _ => []
  | _ :: rest, O => a :: rest
  | x :: rest, S n' => x :: update_nth n' a rest
  end.

(* ================================================================== *)
(** ** The class *)

Section MutationServer.

(** The platform and the configuration module, neither part of the class:
    [JSON.parse] ([None] when it throws) and [JSON.stringify]; [spawn], which
    either returns a child, seen through its process id ([None]: the child
    has no pid, as when the executable is not found), or throws (invalid
    arguments, a system error it does not defer to the child's ['error']
    event); the two messages of [config.errors]. *)
Variable JSON_parse : string -> option JSValue.
Variable JSON_stringify : JSValue -> string.
Variable spawn : string -> list string -> string -> Completion (option Z).
Variable mutationServerExecutablePathNotSet : string.
Variable mutationServerFailed : string.

(** *** Construction *)

Definition port_text (port : option Z) : string :=
  match port with
  | Some p => Number_toString p
  | None => "undefined"
  end.

(** [args]: empty, then [--port <n>] pushed when the port is truthy. *)
Definition port_args (port : option Z) : list string :=
  match port with
  | Some p => if p =? 0 then [] else ["--port"; Number_toString p]
  | None => []
  end.

(** The message logged when the child has no pid. *)
Definition failed_to_start (path : string) (port : option Z) : string :=
  ("[Mutation Server] Failed to start mutation server with executable path: "
   ++ path ++ " and port: " ++ port_text port
   ++ ". These properties can be configured in the extension settings, then reload the window.")%string.

(** [new MutationServer(logger)].  The working directory handed to [spawn]
    is [workspaceFolders![0].uri.fsPath]: without a first folder, reading it
    throws a [TypeError] before [spawn] is called; what [spawn] throws leaves
    the constructor as it is.  The listeners for ['exit'] and for [stderr]
    log and are never removed; they are the [process_exit] and [stderr_data]
    cases of [step].  [started] is the promise [connect] will await: nothing
    can settle it before [waitForMutationServerStarted] has registered its
    listener. *)
Definition constructor (w : Workspace) : Completion MutationServer * list Effect :=
  match mutationServerExecutablePath w with
  | None | Some EmptyString =>
      (Throw (Error mutationServerExecutablePathNotSet),
       [logError mutationServerExecutablePathNotSet])
  | Some path =>
      let args := port_args (mutationServerPort w) in
      match workspaceFolders w with
      | Some (cwd :: _) =>
          match spawn path args cwd with
          | Throw e => (Throw e, [])
          | Normal None =>
              (Throw (Error mutationServerFailed),
               [logError (failed_to_start path (mutationServerPort w))])
          | Normal (Some _) =>
              (Normal (mkServer [LogStdout] Pending None None [] []), [])
          end
      | _ => (Throw TypeError, [])   (* [workspaceFolders![0].uri] *)
      end
  end.

(** [waitForMutationServerStarted]: registers the scanning listener and
    returns the pending promise. *)
Definition waitForMutationServerStarted (s : MutationServer) : MutationServer :=
  set_stdout_listeners (stdout_listeners s ++ [ScanForPort]) s.

(** [connect], up to its [await]: the wait for the port begins. *)
Definition connect (s : MutationServer) : MutationServer :=
  waitForMutationServerStarted s.

(** [create]: the constructor, then [connect]. *)
Definition create (w : Workspace) : Completion MutationServer * list Effect :=
  match constructor w with
  | (Normal server, effects) => (Normal (connect server), effects)
  | (Throw e, effects) => (Throw e, effects)
  end.

(** *** The socket *)

Definition connectViaWebSocket (s : MutationServer) (port : Z)
  : MutationServer * list Effect :=
  let address := ("ws://localhost:" ++ Number_toString port)%string in
  (set_webSocket (Some (mkWebSocket address CONNECTING [])) s,
   [new_WebSocket address]).

(** The rest of [connect], run when the awaited port arrives: the socket is
    created and the RPC client is armed with [send_adapter]. *)
Definition connect_resume (s : MutationServer) (port : Z)
  : MutationServer * list Effect :=
  let (s1, effects) := connectViaWebSocket s port in
  (set_rpcClient (Some (mkClient 0 [])) s1, effects).

(** [waitForOpenSocket(socket)]; [promise] names the promise it creates. *)
Definition waitForOpenSocket (socket : WebSocket) (promise : nat)
  : WebSocket * Promise unit :=
  if negb (ReadyState_eqb (readyState socket) OPEN)
  then (mkWebSocket (url socket) (readyState socket)
                    (open_listeners socket ++ [promise]),
        Pending)
  else (socket, Fulfilled tt).

(** The send function given to [JSONRPCClient]:
    [await waitForOpenSocket(webSocket); webSocket.send(JSON.stringify(request))].
    [None]: it rejects (there is no socket). *)
Definition send_adapter (s : MutationServer) (request : JSValue)
  : option (MutationServer * list Effect) :=
  match webSocket s with
  | None => None
  | Some socket =>
      let (socket', wait) := waitForOpenSocket socket (length (sends s)) in
      let s' := set_sends (sends s ++ [mkSendTask request wait])
                          (set_webSocket (Some socket') s) in
      Some (s',
            match wait with
            | Fulfilled _ => [webSocket_send (JSON_stringify request)]
            | _ => []
            end)
  end.

(** An ['open'] listener of [waitForOpenSocket]: resolves its promise; the
    adapter that awaits it then writes its request. *)
Definition open_listener (s : MutationServer) (promise : nat)
  : MutationServer * list Effect :=
  match nth_error (sends s) promise with
  | Some task =>
      match opened task with
      | Pending =>
          (set_sends (update_nth promise
                        (mkSendTask (jsonRpcRequest task) (resolve tt (opened task)))
                        (sends s)) s,
           [webSocket_send (JSON_stringify (jsonRpcRequest task))])
      | _ => (s, [])
      end
  | None => (s, [])
  end.

(** *** The RPC client (json-rpc-2.0) *)

Definition createJSONRPCRequest (id : Z) (method : string) (params : JSValue)
  : JSValue :=
  JObject [("jsonrpc", JString "2.0"); ("id", JNumber id);
           ("method", JString method); ("params", params)].

Definition remove_id (id : Z) (ids : list Z) : list Z :=
  filter (fun x => negb (x =? id)) ids.

(** [rpcClient.request(method, params)]: a fresh id, a pending entry, then
    the send function; when the send function rejects the request fails. *)
Definition request (s : MutationServer) (client : JSONRPCClient)
           (method : string) (params : JSValue) : MutationServer * list Effect :=
  let id := last_id client + 1 in
  let s1 := set_rpcClient (Some (mkClient id (idToResolveMap client ++ [id]))) s in
  match send_adapter s1 (createJSONRPCRequest id method params) with
  | Some result => result
  | None =>
      (set_rpcClient (Some (mkClient id (idToResolveMap client))) s,
       [request_rejected id])
  end.

(** How the promise of a request settles on its response. *)
Definition settle (id : Z) (response : JSValue) : Effect :=
  let result := get response "result" in
  let error := get response "error" in
  if negb (strict_eq result JUndefined) && negb (truthy error)
  then request_resolved id result
  else request_rejected id.

(** [rpcClient.receive(response)]: the pending entry of the response's id is
    removed and settled; a response nobody waits for is discarded. *)
Definition receive (client : JSONRPCClient) (response : JSValue)
  : JSONRPCClient * list Effect :=
  match get response "id" with
  | JNumber id =>
      if existsb (Z.eqb id) (idToResolveMap client)
      then (mkClient (last_id client) (remove_id id (idToResolveMap client)),
            [settle id response])
      else (client, [])
  | _ => (client, [])
  end.

(** *** The notification subject and the message handler *)

(** One value through one subscription of [mutate]:
    [progressNotification$] keeps the requests of method ['progress'] and
    maps them to their params; [mutate] keeps those whose token is the
    call's [partialResultToken] and hands their value to the callback.
    [None]: a predicate threw a [TypeError]. *)
Definition observer_next (o : Observer) (request : JSValue) : option (list Effect) :=
  if nullish request then None
  else if strict_eq (get request "method") (JString "progress") then
    let progress := get request "params" in
    if nullish progress || nullish (obs_params o) then None
    else if strict_eq (get progress "token") (get (obs_params o) "partialResultToken")
         then Some [onPartialResult (obs_callback o) (get progress "value")]
         else Some []
  else Some [].

(** [notification$Subject.next(value)]: every observer in subscription
    order.  An observer whose chain throws is sent the error; it has no
    error handler, so rxjs reports the error as unhandled and drops the
    subscription; the other observers are not affected. *)
Fixpoint subject_next (obs : list Observer) (value : JSValue)
  : list Observer * list Effect :=
  match obs with
  | [] => ([], [])
  | o :: rest =>
      let (rest', later) := subject_next rest value in
      match observer_next o value with
      | Some effects => (o :: rest', effects ++ later)
      | None => (rest', uncaught "TypeError" :: later)
      end
  end.

(** The ['message'] listener of [connectViaWebSocket]. *)
Definition on_message (s : MutationServer) (data : string)
  : MutationServer * list Effect :=
  match JSON_parse data with
  | None => (s, [logError ("Error parsing JSON: " ++ data)%string])
  | Some response =>
      if truthy response then
        let isNotification := negb (truthy (get response "id")) in
        if isNotification then
          let (obs, effects) := subject_next (observers s) response in
          (set_observers obs s, notification_next response :: effects)
        else
          match rpcClient s with
          | Some client =>
              let (client', effects) := receive client response in
              (set_rpcClient (Some client') s, rpcClient_receive response :: effects)
          | None => (s, [uncaught "TypeError"])
          end
      else (s, [])
  end.

(** The ['error'] listener of [connectViaWebSocket]. *)
Definition on_error (err : string) : list Effect :=
  [logError ("WebSocket Error: " ++ err)%string;
   errorNotification mutationServerFailed].

(** *** The public operations *)

(** [instrument(params)]; the progress indicator of the window is not
    modelled. *)
Definition instrument (s : MutationServer) (params : JSValue)
  : MutationServer * list Effect :=
  match rpcClient s with
  | None => (s, [call_rejected "Setup method not called."])
  | Some client => request s client "instrument" params
  end.

(** [mutate(params, onPartialResult)]: subscribe, then issue the request. *)
Definition mutate (s : MutationServer) (params : JSValue) (callback : nat)
  : MutationServer * list Effect :=
  match rpcClient s with
  | None => (s, [call_rejected "Setup method not called."])
  | Some client =>
      let s1 := set_observers (observers s ++ [mkObserver params callback]) s in
      request s1 client "mutate" params
  end.

(** *** Events *)

(** A ['data'] listener of [process.stdout]: the one of the constructor
    logs the chunk, the one of [waitForMutationServerStarted] scans it and
    calls [resolve] on a match. *)
Definition stdout_listener (chunk : string) (s : MutationServer) (l : StdoutListener)
  : MutationServer * list Effect :=
  match l with
  | LogStdout => (s, [logInfo ("[Mutation Server] " ++ chunk)%string])
  | ScanForPort =>
      match exec_banner chunk with
      | Some digits =>
          let port := parseInt digits in
          (set_started (resolve port (started s)) s, [resolve_port port])
      | None => (s, [])
      end
  end.

(** A chunk on stdout: the listeners run in the order they were registered;
    when that settled the port promise, [connect] resumes. *)
Definition on_stdout_data (s : MutationServer) (chunk : string)
  : MutationServer * list Effect :=
  let (s1, heard) := for_each (stdout_listener chunk) (stdout_listeners s) s in
  match started s, started s1 with
  | Pending, Fulfilled port =>
      let (s2, resumed) := connect_resume s1 port in
      (s2, heard ++ resumed)
  | _, _ => (s1, heard)
  end.

Definition set_readyState (r : ReadyState) (socket : WebSocket) : WebSocket :=
  mkWebSocket (url socket) r (open_listeners socket).

(** One event.  The socket events follow [ws]: ['open'] is emitted once,
    when a connecting socket becomes [OPEN]; an error moves the socket to
    [CLOSING] before ['error'] is emitted; ['close'] leaves it [CLOSED]. *)
Definition step (s : MutationServer) (e : Event) : MutationServer * list Effect :=
  match e with
  | process_exit code =>
      (s, [logInfo ("[Mutation Server] Exited with code "
                    ++ match code with Some c => Number_toString c | None => "null" end)%string])
  | stdout_data chunk => on_stdout_data s chunk
  | stderr_data chunk => (s, [logError ("[Mutation Server] " ++ chunk)%string])
  | socket_open =>
      match webSocket s with
      | Some socket =>
          match readyState socket with
          | CONNECTING =>
              for_each open_listener (open_listeners socket)
                       (set_webSocket (Some (set_readyState OPEN socket)) s)
          | _ => (s, [])
          end
      | None => (s, [])
      end
  | socket_close =>
      match webSocket s with
      | Some socket => (set_webSocket (Some (set_readyState CLOSED socket)) s, [])
      | None => (s, [])
      end
  | socket_error err =>
      match webSocket s with
      | Some socket =>
          (set_webSocket
             (Some (set_readyState
                      (match readyState socket with CLOSED => CLOSED | _ => CLOSING end)
                      socket)) s,
           on_error err)
      | None => (s, [])
      end
  | socket_message data =>
      match webSocket s with
      | Some _ => on_message s data
      | None => (s, [])
      end
  | call_instrument params => instrument s params
  | call_mutate params callback => mutate s params callback
  end.

(** A sequence of events, one after the other. *)
Fixpoint run (s : MutationServer) (events : list Event) : MutationServer * list Effect :=
  match events with
  | [] => (s, [])
  | e :: rest =>
      let (s1, e1) := step s e in
      let (s2, e2) := run s1 rest in
      (s2, e1 ++ e2)
  end.

End MutationServer.

Arguments on_stdout_data : simpl never.

(* ================================================================== *)
(** ** A JSON reader and writer to run the class on concrete frames

    The theorems below hold for every [JSON_parse] and [JSON_stringify].  To
    evaluate the class on concrete frames, this module implements both for
    the JSON texts of the protocol: integers without fraction or exponent,
    strings with the two-character escapes (no [\u]). *)

Module JSON.

Definition quote : ascii := "034"%char.
Definition backslash : ascii := "092"%char.

Definition is_ws (c : ascii) : bool :=
  let n := nat_of_ascii c in
  ((n =? 32) || (n =? 9) || (n =? 10) || (n =? 13))%nat.

Fixpoint skip_ws (s : string) : string :=
  match s with
  | String c rest => if is_ws c then skip_ws rest else s
  | EmptyString => s
  end.

Definition unescape (c : ascii) : option ascii :=
  if Ascii.eqb c quote then Some quote
  else if Ascii.eqb c backslash then Some backslash
  else if Ascii.eqb c "/" then Some "/"%char
  else if Ascii.eqb c "b" then Some "008"%char
  else if Ascii.eqb c "f" then Some "012"%char
  else if Ascii.eqb c "n" then Some "010"%char
  else if Ascii.eqb c "r" then Some "013"%char
  else if Ascii.eqb c "t" then Some "009"%char
  else None.

Definition cons_char (c : ascii) (r : option (string * string))
  : option (string * string) :=
  match r with
  | Some (text, rest) => Some (String c text, rest)
  | None => None
  end.

(** The characters of a string literal, after its opening quote. *)
Fixpoint parse_chars (s : string) : option (string * string) :=
  match s with
  | EmptyString => None
  | String c rest =>
      if Ascii.eqb c quote then Some (EmptyString, rest)
      else if Ascii.eqb c backslash then
        match rest with
        | String e rest' =>
            match unescape e with
            | Some c' => cons_char c' (parse_chars rest')
            | None => None
            end
        | EmptyString => None
        end
      else if (nat_of_ascii c <? 32)%nat then None
      else cons_char c (parse_chars rest)
  end.

(** An integer literal: [-]? then [0] or a digit string without leading 0,
    not followed by a fraction or an exponent. *)
Definition parse_number (s : string) : option (JSValue * string) :=
  let (negative, body) :=
    match s with
    | String c rest => if Ascii.eqb c "-" then (true, rest) else (false, s)
    | EmptyString => (false, s)
    end in
  let digits := leading_digits body in
  let rest := substring (String.length digits)
                        (String.length body - String.length digits) body in
  let leading_zero :=
    match digits with
    | String c (String _ _) => Ascii.eqb c "0"
    | _ => false
    end in
  let continues :=
    match rest with
    | String c _ => Ascii.eqb c "." || Ascii.eqb c "e" || Ascii.eqb c "E"
    | EmptyString => false
    end in
  match digits with
  | EmptyString => None
  | _ =>
      if leading_zero || continues then None
      else Some (JNumber (if negative then - parseInt digits else parseInt digits),
                 rest)
  end.

Definition keyword (word : string) (v : JSValue) (s : string)
  : option (JSValue * string) :=
  match strip_prefix word s with
  | Some rest => Some (v, rest)
  | None => None
  end.

Fixpoint parse_value (fuel : nat) (s : string) {struct fuel}
  : option (JSValue * string) :=
  match fuel with
  | O => None
  | S fuel' =>
      match skip_ws s with
      | EmptyString => None
      | String c rest as text =>
          if Ascii.eqb c quote then
            match parse_chars rest with
            | Some (str, rest') => Some (JString str, rest')
            | None => None
            end
          else if Ascii.eqb c "[" then
            match skip_ws rest with
            | String d rest' as inner =>
                if Ascii.eqb d "]" then Some (JArray [], rest')
                else match parse_elements fuel' inner with
                     | Some (items, rest'') => Some (JArray items, rest'')
                     | None => None
                     end
            | EmptyString => None
            end
          else if Ascii.eqb c "{" then
            match skip_ws rest with
            | String d rest' as inner =>
                if Ascii.eqb d "}" then Some (JObject [], rest')
                else match parse_members fuel' inner with
                     | Some (fields, rest'') => Some (JObject fields, rest'')
                     | None => None
                     end
            | EmptyString => None
            end
          else if Ascii.eqb c "n" then keyword "null" JNull text
          else if Ascii.eqb c "t" then keyword "true" (JBool true) text
          else if Ascii.eqb c "f" then keyword "false" (JBool false) text
          else parse_number text
      end
  end
with parse_elements (fuel : nat) (s : string) {struct fuel}
  : option (list JSValue * string) :=
  match fuel with
  | O => None
  | S fuel' =>
      match parse_value fuel' s with
      | Some (v, rest) =>
          match skip_ws rest with
          | String c rest' =>
              if Ascii.eqb c "," then
                match parse_elements fuel' rest' with
                | Some (vs, rest'') => Some (v :: vs, rest'')
                | None => None
                end
              else if Ascii.eqb c "]" then Some ([v], rest')
              else None
          | EmptyString => None
          end
      | None => None
      end
  end
with parse_members (fuel : nat) (s : string) {struct fuel}
  : option (list (string * JSValue) * string) :=
  match fuel with
  | O => None
  | S fuel' =>
      match skip_ws s with
      | String q rest =>
          if Ascii.eqb q quote then
            match parse_chars rest with
            | Some (key, rest1) =>
                match skip_ws rest1 with
                | String colon rest2 =>
                    if Ascii.eqb colon ":" then
                      match parse_value fuel' rest2 with
                      | Some (v, rest3) =>
                          match skip_ws rest3 with
                          | String c rest4 =>
                              if Ascii.eqb c "," then
                                match parse_members fuel' rest4 with
                                | Some (fields, rest5) => Some ((key, v) :: fields, rest5)
                                | None => None
                                end
                              else if Ascii.eqb c "}" then Some ([(key, v)], rest4)
                              else None
                          | EmptyString => None
                          end
                      | None => None
                      end
                    else None
                | EmptyString => None
                end
            | None => None
            end
          else None
      | EmptyString => None
      end
  end.

(** [JSON.parse(text)]; [None] when it throws. *)
Definition parse (text : string) : option JSValue :=
  match parse_value (2 * S (String.length text)) text with
  | Some (v, rest) =>
      match skip_ws rest with
      | EmptyString => Some v
      | String _ _ => None
      end
  | None => None
  end.

Fixpoint escape (s : string) : string :=
  match s with
  | EmptyString => EmptyString
  | String c rest =>
      if Ascii.eqb c quote then String backslash (String quote (escape rest))
      else if Ascii.eqb c backslash then String backslash (String backslash (escape rest))
      else if Ascii.eqb c "010" then String backslash (String "n" (escape rest))
      else if Ascii.eqb c "013" then String backslash (String "r" (escape rest))
      else if Ascii.eqb c "009" then String backslash (String "t" (escape rest))
      else String c (escape rest)
  end.

Definition quoted (s : string) : string :=
  String quote (escape s ++ String quote EmptyString)%string.

(** [JSON.stringify(v)]: a field whose value is [undefined] is left out;
    [undefined] in an array is written [null]. *)
Fixpoint stringify (v : JSValue) : string :=
  match v with
  | JUndefined | JNull => "null"
  | JBool true => "true"
  | JBool false => "false"
  | JNumber n => Number_toString n
  | JString s => quoted s
  | JArray items =>
      ("[" ++ String.concat ","
                ((fix each (l : list JSValue) : list string :=
                    match l with
                    | [] => []
                    | x :: rest => stringify x :: each rest
                    end) items)
           ++ "]")%string
  | JObject fields =>
      ("{" ++ String.concat ","
                ((fix each (l : list (string * JSValue)) : list string :=
                    match l with
                    | [] => []
                    | (_, JUndefined) :: rest => each rest
                    | (k, x) :: rest => (quoted k ++ ":" ++ stringify x)%string :: each rest
                    end) fields)
           ++ "}")%string
  end.

End JSON.

(** Frames are written with ['] for the double quote. *)
Definition json (text : string) : string :=
  (fix go (s : string) : string :=
     match s with
     | String c rest => String (if Ascii.eqb c "'" then JSON.quote else c) (go rest)
     | EmptyString => EmptyString
     end) text.

(* ================================================================== *)
(** ** Vocabulary of the properties *)

Definition is_send (e : Effect) : bool :=
  match e with webSocket_send _ => true | _ => false end.

(** The events by which the socket changes its ready state. *)
Definition socket_event (e : Event) : bool :=
  match e with
  | socket_open | socket_close | socket_error _ => true
  | _ => false
  end.

(** Send task [p] waits on a connecting socket: its listener is registered,
    its promise is pending (the port is known, or there would be no
    socket). *)
Definition waiting (p : nat) (task : SendTask) (s : MutationServer) : Prop :=
  exists socket port,
    webSocket s = Some socket
    /\ readyState socket = CONNECTING
    /\ In p (open_listeners socket)
    /\ nth_error (sends s) p = Some task
    /\ started s = Fulfilled port
    /\ opened task = Pending.

Definition is_settled (e : Effect) : bool :=
  match e with
  | request_resolved _ _ | request_rejected _ => true
  | _ => false
  end.

(** The socket left [CONNECTING] without ever having been [OPEN]: it is
    closing or closed and every wait for ['open'] is still pending. *)
Definition never_opened (s : MutationServer) : Prop :=
  exists socket port,
    webSocket s = Some socket
    /\ (readyState socket = CLOSING \/ readyState socket = CLOSED)
    /\ started s = Fulfilled port
    /\ Forall (fun t => opened t = Pending) (sends s).

(** An event that is not a chunk on stdout matching the banner. *)
Definition no_banner (e : Event) : Prop :=
  match e with
  | stdout_data chunk => exec_banner chunk = None
  | _ => True
  end.

(** The token a subscription of [mutate] listens for. *)
Definition obs_token (o : Observer) : JSValue :=
  get (obs_params o) "partialResultToken".

(** The callbacks a progress notification with this token and value reaches:
    those of the subscriptions with a strictly equal token, in subscription
    order. *)
Definition callbacks_for (token value : JSValue) (obs : list Observer) : list Effect :=
  flat_map (fun o => if strict_eq token (obs_token o)
                     then [onPartialResult (obs_callback o) value]
                     else [])
           obs.

(** There is a socket exactly when the port is known, and then there is an
    RPC client, whose ids count up from 0; while the socket is connecting
    every wait for ['open'] is pending. *)
Definition connection_consistent (s : MutationServer) : Prop :=
  match webSocket s with
  | None => started s = Pending /\ rpcClient s = None /\ sends s = []
  | Some socket =>
      (exists port, started s = Fulfilled port)
      /\ (exists client, rpcClient s = Some client /\ 0 <= last_id client)
      /\ (readyState socket = CONNECTING ->
          Forall (fun t => opened t = Pending) (sends s))
  end.

(** What holds of the server from [create] on: the scanning listener is
    registered and the connection is consistent. *)
Definition consistent (s : MutationServer) : Prop :=
  In ScanForPort (stdout_listeners s) /\ connection_consistent s.

(* ================================================================== *)
(** ** A concrete server, to run the class on concrete events *)

Module Demo.

Definition spawn (path : string) (args : list string) (cwd : string)
  : Completion (option Z) := Normal (Some 4242).

Definition notSet : string := "Mutation server executable path is not set.".
Definition failed : string := "Mutation server failed.".

Definition workspace : Workspace :=
  mkWorkspace (Some "/usr/local/bin/stryker-server") None (Some ["/home/dev/project"]).

Definition step := step JSON.parse JSON.stringify failed.
Definition run := run JSON.parse JSON.stringify failed.

(** The server [create] makes for [workspace]: it awaits the port. *)
Definition awaiting_port : MutationServer :=
  mkServer [LogStdout; ScanForPort] Pending None None [] [].

(** The engine announced port 54321: the socket is connecting. *)
Definition connecting : MutationServer :=
  fst (run awaiting_port [stdout_data "Server is listening on port: 54321"]).

(** The socket opened. *)
Definition ready : MutationServer := fst (run connecting [socket_open]).

Definition progress (token value : string) : string :=
  json ("{'jsonrpc':'2.0','method':'progress','params':{'token':'" ++ token
        ++ "','value':'" ++ value ++ "'}}")%string.

Definition progress_request (token value : string) : JSValue :=
  JObject [("jsonrpc", JString "2.0"); ("method", JString "progress");
           ("params", JObject [("token", JString token); ("value", JString value)])].

Definition mutate_params (token : string) : JSValue :=
  JObject [("globPatterns", JArray [JString "src/**/*.ts"]);
           ("partialResultToken", JString token)].

(** Responses: a result for request 1, an error for request 1, and a
    response whose id is 0. *)
Definition result_1 : string := json "{'jsonrpc':'2.0','id':1,'result':null}".
Definition result_1_parsed : JSValue :=
  JObject [("jsonrpc", JString "2.0"); ("id", JNumber 1); ("result", JNull)].

Definition error_1 : string :=
  json "{'jsonrpc':'2.0','id':1,'error':{'code':-32000,'message':'engine crashed'}}".
Definition error_1_parsed : JSValue :=
  JObject [("jsonrpc", JString "2.0"); ("id", JNumber 1);
           ("error", JObject [("code", JNumber (-32000));
                              ("message", JString "engine crashed")])].

Definition result_0 : string := json "{'jsonrpc':'2.0','id':0,'result':[]}".
Definition result_0_parsed : JSValue :=
  JObject [("jsonrpc", JString "2.0"); ("id", JNumber 0); ("result", JArray [])].

Definition truncated : string := json "{'jsonrpc':'2.0','id':1,'resu".

(** [ready] after [mutate] was called with token [t1] and callback 7. *)
Definition mutating : MutationServer :=
  fst (run ready [call_mutate (mutate_params "t1") 7]).

(** [ready] after two calls of [mutate], with tokens [t1] and [t2] and
    callbacks 1 and 2. *)
Definition mutating_twice : MutationServer :=
  fst (run ready [call_mutate (mutate_params "t1") 1;
                  call_mutate (mutate_params "t2") 2]).

(** [connecting] after [mutate] was called: its request waits for the
    socket to open. *)
Definition queued : MutationServer :=
  fst (run connecting [call_mutate (mutate_params "t1") 7]).

End Demo.


(* ================================================================== *)
(** ** Properties *)

(** *** The text helpers and the JSON reader on examples *)

Example exec_banner_ex :
  option_map parseInt (exec_banner "info Server is listening on port: 54321 ok")
  = Some 54321.
Proof. reflexivity. Qed.

Example Number_toString_ex :
  (Number_toString 54321, Number_toString 0, Number_toString (-7))
  = ("54321", "0", "-7")%string.
Proof. reflexivity. Qed.

Example JSON_parse_ex :
  JSON.parse (json "{'id': 1, 'result': [true, null, 'a\nb'], 'id': 2}")
  = Some (JObject [("id", JNumber 1);
                   ("result", JArray [JBool true; JNull;
                                      JString (String "a" (String "010" "b"))]);
                   ("id", JNumber 2)]).
Proof. reflexivity. Qed.

Example JSON_parse_truncated : JSON.parse (json "{'id': 1, 'resu") = None.
Proof. reflexivity. Qed.

Example JSON_stringify_ex :
  JSON.stringify (JObject [("jsonrpc", JString "2.0"); ("id", JNumber 1);
                           ("method", JString "mutate"); ("params", JUndefined)])
  = json "{'jsonrpc':'2.0','id':1,'method':'mutate'}".
Proof. reflexivity. Qed.

(** *** The banner pattern *)

Lemma strip_prefix_app (p s rest : string) :
  strip_prefix p s = Some rest -> s = (p ++ rest)%string.
Proof.
  revert s. induction p as [|a p IH]; intros s; simpl.
  - congruence.
  - destruct s as [|b s]; [discriminate|].
    destruct (Ascii.eqb_spec a b) as [->|]; [|discriminate].
    intros H. now rewrite (IH _ H).
Qed.

Lemma leading_digits_split (s : string) :
  exists after,
    s = (leading_digits s ++ after)%string
    /\ leading_digits after = EmptyString
    /\ leading_digits (leading_digits s) = leading_digits s.
Proof.
  induction s as [|c s (after & H1 & H2 & H3)]; simpl.
  - exists EmptyString. auto.
  - destruct (is_digit c) eqn:Hc; simpl.
    + exists after. rewrite Hc. repeat split; congruence.
    + exists (String c s). simpl. rewrite Hc. auto.
Qed.

(** What [exec_banner] returns is what the pattern captures: a non-empty run
    of decimal digits that follows the banner text in the chunk and is
    followed by no further digit. *)
Lemma exec_banner_sound (s digits : string) :
  exec_banner s = Some digits ->
  digits <> EmptyString
  /\ leading_digits digits = digits
  /\ exists before after,
      s = (before ++ banner ++ digits ++ after)%string
      /\ leading_digits after = EmptyString.
Proof.
  induction s as [|c s IH].
  - cbn. discriminate.
  - cbn [exec_banner].
    destruct (match_banner (String c s)) as [ds|] eqn:Hhere.
    + intros H. injection H as <-. unfold match_banner in Hhere.
      destruct (strip_prefix banner (String c s)) as [rest|] eqn:Hp; [|discriminate].
      apply strip_prefix_app in Hp.
      destruct (leading_digits_split rest) as (after & H1 & H2 & H3).
      destruct (leading_digits rest) as [|d ds'] eqn:Hd; [discriminate|].
      injection Hhere as <-.
      split; [discriminate|]. split; [exact H3|].
      exists EmptyString, after. simpl. rewrite Hp, H1 at 1. auto.
    + intros H. destruct (IH H) as (G1 & G2 & before & after & -> & G3).
      split; auto. split; auto. exists (String c before), after. auto.
Qed.

(** *** Lists, listeners, the subject *)

Lemma for_each_state {A S : Type} (P : S -> Prop)
      (f : S -> A -> S * list Effect) (l : list A) (s : S) :
  (forall s a, P s -> P (fst (f s a))) ->
  P s -> P (fst (for_each f l s)).
Proof.
  intros Hf. revert s. induction l as [|a l IH]; intros s Hs; simpl; auto.
  specialize (Hf s a Hs). destruct (f s a) as [s1 e1].
  specialize (IH s1 Hf). destruct (for_each f l s1). exact IH.
Qed.

Lemma for_each_effects {A S : Type} (P : S -> Prop) (Q : Effect -> Prop)
      (f : S -> A -> S * list Effect) (l : list A) (s : S) :
  (forall s a, P s -> P (fst (f s a))) ->
  (forall s a e, P s -> In e (snd (f s a)) -> Q e) ->
  P s -> forall e, In e (snd (for_each f l s)) -> Q e.
Proof.
  intros Hf Hq. revert s. induction l as [|a l IH]; intros s Hs e; simpl.
  - tauto.
  - specialize (Hf s a Hs). specialize (Hq s a).
    destruct (f s a) as [s1 e1]. specialize (IH s1 Hf e).
    destruct (for_each f l s1) as [s2 e2]. simpl in *.
    rewrite in_app_iff. intros [H|H]; eauto.
Qed.

Lemma nth_error_update_nth_eq {A : Type} (l : list A) (n : nat) (a x : A) :
  nth_error l n = Some x -> nth_error (update_nth n a l) n = Some a.
Proof.
  revert n. induction l as [|y l IH]; intros [|n]; simpl; try discriminate; auto.
Qed.

Lemma nth_error_update_nth_neq {A : Type} (l : list A) (n m : nat) (a : A) :
  n <> m -> nth_error (update_nth n a l) m = nth_error l m.
Proof.
  revert n m. induction l as [|y l IH]; intros [|n] [|m] H; simpl; auto.
  congruence.
Qed.

Lemma length_update_nth {A : Type} (l : list A) (n : nat) (a : A) :
  length (update_nth n a l) = length l.
Proof.
  revert n. induction l as [|y l IH]; intros [|n]; simpl; auto.
Qed.

Lemma ReadyState_eqb_eq (a b : ReadyState) :
  ReadyState_eqb a b = true <-> a = b.
Proof. destruct a, b; simpl; split; congruence. Qed.

Lemma strict_eq_true (a b : JSValue) : strict_eq a b = true -> a = b.
Proof.
  destruct a, b; simpl; try discriminate; auto; intros H.
  - apply Bool.eqb_prop in H. congruence.
  - apply Z.eqb_eq in H. congruence.
  - apply String.eqb_eq in H. congruence.
Qed.

Lemma get_string_not_nullish (v : JSValue) (name text : string) :
  get v name = JString text -> nullish v = false /\ truthy v = true.
Proof. destruct v; simpl; try discriminate; auto. Qed.

Lemma remove_id_not_in (id : Z) (ids : list Z) : ~ In id (remove_id id ids).
Proof.
  unfold remove_id. rewrite filter_In. intros [_ H].
  rewrite Z.eqb_refl in H. discriminate.
Qed.

(** The subject only ever calls callbacks or reports a thrown predicate. *)
Lemma subject_next_effects (obs : list Observer) (value : JSValue) (e : Effect) :
  In e (snd (subject_next obs value)) ->
  (exists callback partial, e = onPartialResult callback partial)
  \/ e = uncaught "TypeError".
Proof.
  induction obs as [|o rest IH]; simpl; [tauto|].
  destruct (subject_next rest value) as [rest' later]. simpl in IH.
  unfold observer_next.
  destruct (nullish value); simpl.
  { intros [<-|H]; auto. }
  destruct (strict_eq (get value "method") (JString "progress")); simpl; auto.
  destruct (nullish (get value "params") || nullish (obs_params o)); simpl.
  { intros [<-|H]; auto. }
  destruct (strict_eq _ _); simpl; auto.
  intros [<-|H]; eauto.
Qed.

Lemma receive_effects (client : JSONRPCClient) (response : JSValue) (e : Effect) :
  In e (snd (receive client response)) ->
  (exists id result, e = request_resolved id result)
  \/ (exists id, e = request_rejected id).
Proof.
  unfold receive.
  destruct (get response "id"); simpl; try tauto.
  destruct (existsb _ _); simpl; try tauto.
  intros [<-|[]]. unfold settle.
  destruct (_ && _); eauto.
Qed.

(** A progress notification whose params is an object, on subscriptions
    whose [params] are objects: nothing throws, every subscription stays,
    and exactly the callbacks of the matching tokens are called. *)
Lemma subject_next_progress (obs : list Observer) (request : JSValue) :
  get request "method" = JString "progress" ->
  nullish (get request "params") = false ->
  Forall (fun o => nullish (obs_params o) = false) obs ->
  subject_next obs request
  = (obs, callbacks_for (get (get request "params") "token")
                        (get (get request "params") "value") obs).
Proof.
  intros Hm Hp Hobs.
  destruct (get_string_not_nullish _ _ _ Hm) as [Hn _].
  induction Hobs as [|o rest Ho _ IH]; [reflexivity|].
  simpl. rewrite IH. unfold observer_next.
  rewrite Hn, Hm, Hp, Ho. simpl.
  unfold obs_token. destruct (strict_eq _ _); reflexivity.
Qed.

(** Whatever the other subscriptions do, a subscription whose token
    matches gets the value. *)
Lemma subject_next_invokes (obs : list Observer) (request : JSValue) (o : Observer) :
  In o obs ->
  get request "method" = JString "progress" ->
  nullish (get request "params") = false ->
  nullish (obs_params o) = false ->
  strict_eq (get (get request "params") "token") (obs_token o) = true ->
  In (onPartialResult (obs_callback o) (get (get request "params") "value"))
     (snd (subject_next obs request)).
Proof.
  intros Hin Hm Hp Ho Htok.
  destruct (get_string_not_nullish _ _ _ Hm) as [Hn _].
  induction obs as [|o' rest IH]; [easy|].
  simpl. destruct (subject_next rest request) as [rest' later]. simpl in IH.
  destruct Hin as [->|Hin].
  - unfold observer_next. rewrite Hn, Hm, Hp, Ho. simpl.
    unfold obs_token in Htok. rewrite Htok. simpl. auto.
  - destruct (observer_next o' request); simpl; auto.
    apply in_or_app. auto.
Qed.

Lemma in_callbacks_for (token value : JSValue) (obs : list Observer)
      (callback : nat) (partial : JSValue) :
  In (onPartialResult callback partial) (callbacks_for token value obs)
  <-> partial = value
      /\ exists o, In o obs /\ obs_callback o = callback
                   /\ strict_eq token (obs_token o) = true.
Proof.
  unfold callbacks_for. rewrite in_flat_map. split.
  - intros (o & Hin & H). destruct (strict_eq token (obs_token o)) eqn:E; [|easy].
    destruct H as [H|[]]. injection H as <- <-. eauto.
  - intros (-> & o & Hin & <- & E). exists o. rewrite E. simpl. auto.
Qed.

Lemma callbacks_for_none (token value : JSValue) (obs : list Observer) :
  (forall o, In o obs -> strict_eq token (obs_token o) = false) ->
  callbacks_for token value obs = [].
Proof.
  induction obs as [|o rest IH]; intros H; [reflexivity|].
  unfold callbacks_for in *. simpl. rewrite (H o) by (simpl; auto).
  simpl. apply IH. intros o' Ho'. apply H. simpl. auto.
Qed.

(** The subject drops a subscription only when its chain throws. *)
Lemma subject_next_keeps (obs : list Observer) (value : JSValue) :
  (forall what, ~ In (uncaught what) (snd (subject_next obs value))) ->
  fst (subject_next obs value) = obs.
Proof.
  induction obs as [|o rest IH]; simpl; auto.
  destruct (subject_next rest value) as [rest' later]. simpl in *.
  destruct (observer_next o value) as [effects|]; simpl; intros H.
  - f_equal. apply IH. intros what Hin. apply (H what). apply in_or_app. auto.
  - exfalso. apply (H "TypeError"%string). simpl. auto.
Qed.

Lemma resolve_settled {A : Type} (a : A) (p : Promise A) :
  p <> Pending -> resolve a p = p.
Proof. destruct p; simpl; congruence. Qed.

Lemma server_eq (s s' : MutationServer) :
  stdout_listeners s' = stdout_listeners s -> started s' = started s ->
  webSocket s' = webSocket s -> rpcClient s' = rpcClient s ->
  observers s' = observers s -> sends s' = sends s ->
  s' = s.
Proof. destruct s, s'; simpl; congruence. Qed.

(** The listeners of stdout touch nothing but the port promise. *)
Lemma heard_frame (chunk : string) (listeners : list StdoutListener)
      (s : MutationServer) :
  let s' := fst (for_each (stdout_listener chunk) listeners s) in
  stdout_listeners s' = stdout_listeners s /\ webSocket s' = webSocket s
  /\ rpcClient s' = rpcClient s /\ observers s' = observers s
  /\ sends s' = sends s.
Proof.
  apply (for_each_state
           (fun s' => stdout_listeners s' = stdout_listeners s
                      /\ webSocket s' = webSocket s /\ rpcClient s' = rpcClient s
                      /\ observers s' = observers s /\ sends s' = sends s)); auto.
  intros s0 l H0. unfold stdout_listener.
  destruct l; simpl; auto.
  destruct (exec_banner chunk); simpl; auto.
Qed.

(** They leave the promise as it is, or resolve it with the port of the
    chunk. *)
Lemma heard_started (chunk : string) (listeners : list StdoutListener)
      (s : MutationServer) :
  let s' := fst (for_each (stdout_listener chunk) listeners s) in
  started s' = started s
  \/ exists digits,
      exec_banner chunk = Some digits
      /\ started s' = resolve (parseInt digits) (started s).
Proof.
  apply (for_each_state
           (fun s' => started s' = started s
                      \/ exists digits,
                          exec_banner chunk = Some digits
                          /\ started s' = resolve (parseInt digits) (started s))); auto.
  intros s0 l H0. unfold stdout_listener.
  destruct l; simpl; auto.
  destruct (exec_banner chunk) as [digits|] eqn:Hexec; simpl; auto.
  right. exists digits. split; auto.
  destruct H0 as [->|(digits' & Hd & ->)]; auto.
  injection Hd as <-. destruct (started s); reflexivity.
Qed.

Lemma heard_effects (chunk : string) (listeners : list StdoutListener)
      (s : MutationServer) (e : Effect) :
  In e (snd (for_each (stdout_listener chunk) listeners s)) ->
  (exists m, e = logInfo m) \/ (exists p, e = resolve_port p).
Proof.
  apply (for_each_effects (fun _ => True)
           (fun e => (exists m, e = logInfo m) \/ (exists p, e = resolve_port p))); auto.
  intros s0 l e0 _. unfold stdout_listener.
  destruct l; simpl.
  - intros [<-|[]]. eauto.
  - destruct (exec_banner chunk); simpl.
    + intros [<-|[]]. eauto.
    + intros [].
Qed.

(** Once the port promise is settled, output on stdout changes nothing. *)
Lemma on_stdout_settled (s : MutationServer) (chunk : string) :
  started s <> Pending -> fst (on_stdout_data s chunk) = s.
Proof.
  intros Hs. unfold on_stdout_data.
  pose proof (heard_frame chunk (stdout_listeners s) s) as Hf.
  pose proof (heard_started chunk (stdout_listeners s) s) as Hst.
  destruct (for_each (stdout_listener chunk) (stdout_listeners s) s) as [s1 heard].
  simpl in *.
  assert (E : s1 = s).
  { destruct Hf as (F1 & F2 & F3 & F4 & F5). apply server_eq; auto.
    destruct Hst as [H|(digits & _ & H)]; auto.
    rewrite H. now apply resolve_settled. }
  subst s1. destruct (started s); simpl; auto; congruence.
Qed.

Lemma on_stdout_effects (s : MutationServer) (chunk : string) (e : Effect) :
  In e (snd (on_stdout_data s chunk)) ->
  (exists m, e = logInfo m) \/ (exists p, e = resolve_port p)
  \/ (exists u, e = new_WebSocket u).
Proof.
  unfold on_stdout_data.
  pose proof (heard_effects chunk (stdout_listeners s) s e) as Hh.
  destruct (for_each (stdout_listener chunk) (stdout_listeners s) s) as [s1 heard].
  simpl in Hh.
  assert (Hheard : In e heard ->
                   (exists m, e = logInfo m) \/ (exists p, e = resolve_port p)
                   \/ (exists u, e = new_WebSocket u)).
  { intros H. destruct (Hh H) as [G|G]; auto. }
  destruct (started s); auto.
  destruct (started s1); auto.
  simpl. rewrite in_app_iff. intros [H|[<-|[]]]; eauto.
Qed.

Lemma on_stdout_never_sends (s : MutationServer) (chunk : string) (e : Effect) :
  In e (snd (on_stdout_data s chunk)) -> is_send e = false.
Proof.
  intros H. apply on_stdout_effects in H.
  destruct H as [(m & ->)|[(p & ->)|(u & ->)]]; reflexivity.
Qed.

Lemma on_stdout_frame (s : MutationServer) (chunk : string) :
  let s' := fst (on_stdout_data s chunk) in
  stdout_listeners s' = stdout_listeners s /\ observers s' = observers s
  /\ sends s' = sends s.
Proof.
  unfold on_stdout_data.
  pose proof (heard_frame chunk (stdout_listeners s) s) as Hf.
  destruct (for_each (stdout_listener chunk) (stdout_listeners s) s) as [s1 heard].
  simpl in Hf. destruct Hf as (F1 & _ & _ & F4 & F5).
  destruct (started s); simpl; auto.
  destruct (started s1); simpl; auto.
Qed.

(** The port promise changes only when a chunk matches the banner while it
    is pending, and then it is fulfilled with the port of that chunk. *)
Lemma on_stdout_started (s : MutationServer) (chunk : string) :
  started (fst (on_stdout_data s chunk)) = started s
  \/ (started s = Pending
      /\ exists digits,
          exec_banner chunk = Some digits
          /\ started (fst (on_stdout_data s chunk)) = Fulfilled (parseInt digits)).
Proof.
  destruct (started s) eqn:Hs.
  2,3: left; rewrite on_stdout_settled; congruence.
  unfold on_stdout_data. rewrite Hs.
  pose proof (heard_started chunk (stdout_listeners s) s) as Hst.
  destruct (for_each (stdout_listener chunk) (stdout_listeners s) s) as [s1 heard].
  simpl in Hst. rewrite Hs in Hst. simpl in Hst.
  destruct Hst as [H|(digits & Hexec & H)]; rewrite H; simpl; eauto.
Qed.

(** The scanning listener settles the pending promise at the first chunk
    that matches. *)
Lemma scan_resolves (s : MutationServer) (chunk digits : string) :
  In ScanForPort (stdout_listeners s) -> started s = Pending ->
  exec_banner chunk = Some digits ->
  started (fst (on_stdout_data s chunk)) = Fulfilled (parseInt digits).
Proof.
  intros Hin Hs Hexec.
  assert (H : forall listeners s0,
             In ScanForPort listeners ->
             started (fst (for_each (stdout_listener chunk) listeners s0))
             = resolve (parseInt digits) (started s0)).
  { induction listeners as [|l rest IH]; intros s0 Hl; [easy|].
    simpl. destruct l; simpl.
    - destruct Hl as [Hl|Hl]; [discriminate|]. specialize (IH s0 Hl).
      destruct (for_each (stdout_listener chunk) rest s0). exact IH.
    - rewrite Hexec.
      match goal with |- context [for_each ?f rest ?x] =>
        pose proof (heard_started chunk rest x) as Hst;
        destruct (for_each f rest x) as [s2 e2]
      end.
      simpl in *. destruct Hst as [->|(d & Hd & ->)]; auto.
      rewrite Hexec in Hd. injection Hd as <-.
      destruct (started s0); reflexivity. }
  specialize (H (stdout_listeners s) s Hin).
  unfold on_stdout_data. rewrite Hs in *.
  destruct (for_each (stdout_listener chunk) (stdout_listeners s) s) as [s1 heard].
  simpl in H. rewrite H. simpl. exact H.
Qed.

(** As long as the scanning listener is registered, every chunk that
    matches makes it call [resolve]. *)
Lemma scan_calls_resolve (s : MutationServer) (chunk digits : string) :
  In ScanForPort (stdout_listeners s) -> exec_banner chunk = Some digits ->
  In (resolve_port (parseInt digits)) (snd (on_stdout_data s chunk)).
Proof.
  intros Hin Hexec.
  assert (H : forall listeners s0,
             In ScanForPort listeners ->
             In (resolve_port (parseInt digits))
                (snd (for_each (stdout_listener chunk) listeners s0))).
  { induction listeners as [|l rest IH]; intros s0 Hl; [easy|].
    simpl. destruct Hl as [->|Hl].
    - simpl. rewrite Hexec.
      match goal with |- context [for_each ?f rest ?x] =>
        destruct (for_each f rest x) end. simpl. auto.
    - specialize (IH (fst (stdout_listener chunk s0 l)) Hl).
      destruct (stdout_listener chunk s0 l) as [s1 e1]. simpl in IH.
      destruct (for_each (stdout_listener chunk) rest s1). simpl in *.
      apply in_or_app. auto. }
  specialize (H (stdout_listeners s) s Hin).
  unfold on_stdout_data.
  destruct (for_each (stdout_listener chunk) (stdout_listeners s) s) as [s1 heard].
  simpl in H. destruct (started s); simpl; auto.
  destruct (started s1); simpl; auto. apply in_or_app. auto.
Qed.

Lemma on_stdout_keeps_socket (s : MutationServer) (chunk : string) :
  webSocket s <> None -> webSocket (fst (on_stdout_data s chunk)) <> None.
Proof.
  unfold on_stdout_data.
  pose proof (heard_frame chunk (stdout_listeners s) s) as Hf.
  destruct (for_each (stdout_listener chunk) (stdout_listeners s) s) as [s1 heard].
  simpl in Hf. destruct Hf as (_ & F2 & _).
  destruct (started s); simpl; try congruence.
  destruct (started s1); simpl; congruence.
Qed.

(** *** The server *)

Section Server.

Variable JSON_parse : string -> option JSValue.
Variable JSON_stringify : JSValue -> string.
Variable mutationServerFailed : string.

Local Abbreviation step_ := (step JSON_parse JSON_stringify mutationServerFailed).
Local Abbreviation run_ := (run JSON_parse JSON_stringify mutationServerFailed).

Lemma run_app (s : MutationServer) (l1 l2 : list Event) :
  run_ s (l1 ++ l2)
  = (fst (run_ (fst (run_ s l1)) l2),
     snd (run_ s l1) ++ snd (run_ (fst (run_ s l1)) l2)).
Proof.
  revert s. induction l1 as [|e l1 IH]; intros s; simpl.
  - destruct (run_ s l2); reflexivity.
  - destruct (step_ s e) as [s1 e1]. rewrite IH.
    destruct (run_ s1 l1) as [s2 e2]. simpl.
    now rewrite app_assoc.
Qed.

Lemma run_cons (s : MutationServer) (e : Event) (l : list Event) :
  run_ s (e :: l)
  = (fst (run_ (fst (step_ s e)) l),
     snd (step_ s e) ++ snd (run_ (fst (step_ s e)) l)).
Proof.
  simpl. destruct (step_ s e) as [s1 e1]. simpl.
  destruct (run_ s1 l); reflexivity.
Qed.

(** *** C1 *)

(** C1 (as the code has it).  A frame that parses is classified by the
    truthiness of the parsed value and of its [id]: a falsy value ([null],
    [0], [false], the empty string) is delivered nowhere; a truthy value
    whose [id] is missing or falsy ([null], [0], [false], the empty string)
    goes to the notification subject and never to the RPC client; a truthy
    value with a truthy [id] goes to the RPC client and never to the
    notification subject.  (A message without [id] field has a falsy [id].) *)
Theorem message_routed_by_truthiness_of_id
        (s : MutationServer) (socket : WebSocket) (client : JSONRPCClient)
        (data : string) (response : JSValue) :
  webSocket s = Some socket ->
  rpcClient s = Some client ->
  JSON_parse data = Some response ->
  let effects := snd (step_ s (socket_message data)) in
  (has_field response "id" = false -> truthy (get response "id") = false)
  /\ if truthy response then
       if truthy (get response "id")
       then (exists rest, effects = rpcClient_receive response :: rest)
            /\ (forall v, ~ In (notification_next v) effects)
       else (exists rest, effects = notification_next response :: rest)
            /\ (forall v, ~ In (rpcClient_receive v) effects)
     else effects = [].
Proof.
  intros Hsock Hclient Hparse. simpl. split.
  { destruct response; simpl; auto.
    destruct (lookup_field "id" fields); [discriminate|reflexivity]. }
  rewrite Hsock.
  unfold on_message. rewrite Hparse.
  destruct (truthy response); [|reflexivity].
  destruct (truthy (get response "id")); simpl.
  - rewrite Hclient.
    pose proof (receive_effects client response) as Heff.
    destruct (receive client response) as [client' effects]. simpl in *.
    split; [eauto|].
    intros v [H|H]; [discriminate|].
    apply Heff in H. destruct H as [(i & r & H)|(i & H)]; discriminate.
  - pose proof (subject_next_effects (observers s) response) as Heff.
    destruct (subject_next (observers s) response) as [obs effects]. simpl in *.
    split; [eauto|].
    intros v [H|H]; [discriminate|].
    apply Heff in H. destruct H as [(c & p & H)|H]; discriminate.
Qed.

(** What [rpcClient.request] does, spelled out: on an open socket the
    request is written at once; otherwise a listener for ['open'] is
    registered and nothing is written. *)
Lemma request_on_socket (s : MutationServer) (socket : WebSocket)
      (client : JSONRPCClient) (method : string) (params : JSValue) :
  webSocket s = Some socket ->
  let id := last_id client + 1 in
  let envelope := createJSONRPCRequest id method params in
  let client' := Some (mkClient id (idToResolveMap client ++ [id])) in
  request JSON_stringify s client method params
  = if ReadyState_eqb (readyState socket) OPEN
    then (mkServer (stdout_listeners s) (started s) (Some socket) client'
                   (observers s) (sends s ++ [mkSendTask envelope (Fulfilled tt)]),
          [webSocket_send (JSON_stringify envelope)])
    else (mkServer (stdout_listeners s) (started s)
                   (Some (mkWebSocket (url socket) (readyState socket)
                                      (open_listeners socket ++ [length (sends s)])))
                   client' (observers s)
                   (sends s ++ [mkSendTask envelope Pending]),
          []).
Proof.
  intros Hsock. unfold request, send_adapter. simpl. rewrite Hsock.
  unfold waitForOpenSocket.
  destruct (ReadyState_eqb (readyState socket) OPEN); reflexivity.
Qed.

(** An ['open'] listener touches nothing but the task it resolves. *)
Lemma open_listener_frame (s : MutationServer) (promise : nat) :
  let s' := fst (open_listener JSON_stringify s promise) in
  stdout_listeners s' = stdout_listeners s /\ started s' = started s
  /\ webSocket s' = webSocket s /\ rpcClient s' = rpcClient s
  /\ observers s' = observers s /\ length (sends s') = length (sends s).
Proof.
  unfold open_listener.
  destruct (nth_error (sends s) promise) as [task|]; simpl; auto 10.
  destruct (opened task); simpl; auto 10.
  rewrite length_update_nth. auto 10.
Qed.

Lemma open_listener_settled (s : MutationServer) (promise p : nat) (t : SendTask) :
  nth_error (sends s) p = Some t ->
  opened t <> Pending ->
  nth_error (sends (fst (open_listener JSON_stringify s promise))) p = Some t.
Proof.
  intros Hp Ht. unfold open_listener.
  destruct (nth_error (sends s) promise) as [task|] eqn:Hq; simpl; auto.
  destruct (opened task) eqn:Ho; simpl; auto.
  rewrite nth_error_update_nth_neq; auto.
  intros ->. congruence.
Qed.

Lemma open_listener_other (s : MutationServer) (promise p : nat) :
  promise <> p ->
  nth_error (sends (fst (open_listener JSON_stringify s promise))) p
  = nth_error (sends s) p.
Proof.
  intros Hne. unfold open_listener.
  destruct (nth_error (sends s) promise) as [task|]; simpl; auto.
  destruct (opened task); simpl; auto.
  now rewrite nth_error_update_nth_neq.
Qed.

(** Emitting ['open']: every registered wait that is still pending is
    fulfilled, and the request that awaited it is written. *)
Lemma emit_open_resolves (listeners : list nat) (s : MutationServer)
      (p : nat) (t : SendTask) :
  In p listeners ->
  nth_error (sends s) p = Some t ->
  opened t = Pending ->
  let r := for_each (open_listener JSON_stringify) listeners s in
  nth_error (sends (fst r)) p = Some (mkSendTask (jsonRpcRequest t) (Fulfilled tt))
  /\ In (webSocket_send (JSON_stringify (jsonRpcRequest t))) (snd r).
Proof.
  revert s. induction listeners as [|q rest IH]; intros s Hin Hp Ht; [easy|].
  simpl.
  destruct (Nat.eq_dec q p) as [->|Hne].
  - assert (H1 : nth_error (sends (fst (open_listener JSON_stringify s p))) p
                 = Some (mkSendTask (jsonRpcRequest t) (Fulfilled tt))
                 /\ In (webSocket_send (JSON_stringify (jsonRpcRequest t)))
                       (snd (open_listener JSON_stringify s p))).
    { unfold open_listener. rewrite Hp, Ht. simpl. split; auto.
      eapply nth_error_update_nth_eq; eauto. }
    destruct (open_listener JSON_stringify s p) as [s1 e1]. simpl in H1.
    destruct H1 as [H1 H2].
    assert (H3 : nth_error (sends (fst (for_each (open_listener JSON_stringify) rest s1))) p
                 = Some (mkSendTask (jsonRpcRequest t) (Fulfilled tt))).
    { apply (for_each_state
               (fun s => nth_error (sends s) p
                         = Some (mkSendTask (jsonRpcRequest t) (Fulfilled tt)))); auto.
      intros s0 a H0. apply open_listener_settled; auto. discriminate. }
    destruct (for_each (open_listener JSON_stringify) rest s1) as [s2 e2].
    simpl in *. split; auto. apply in_or_app; auto.
  - destruct Hin as [Hin|Hin]; [congruence|].
    pose proof (open_listener_other s q p Hne) as Hsame.
    destruct (open_listener JSON_stringify s q) as [s1 e1]. simpl in Hsame.
    rewrite <- Hsame in Hp.
    specialize (IH s1 Hin Hp Ht).
    destruct (for_each (open_listener JSON_stringify) rest s1) as [s2 e2].
    simpl in *. destruct IH as [IH1 IH2]. split; auto.
    apply in_or_app; auto.
Qed.

Lemma emit_open_frame (listeners : list nat) (s : MutationServer) :
  let s' := fst (for_each (open_listener JSON_stringify) listeners s) in
  stdout_listeners s' = stdout_listeners s /\ started s' = started s
  /\ webSocket s' = webSocket s /\ rpcClient s' = rpcClient s
  /\ observers s' = observers s /\ length (sends s') = length (sends s).
Proof.
  apply (for_each_state
           (fun s' => stdout_listeners s' = stdout_listeners s
                      /\ started s' = started s
                      /\ webSocket s' = webSocket s /\ rpcClient s' = rpcClient s
                      /\ observers s' = observers s
                      /\ length (sends s') = length (sends s))); auto 10.
  intros s0 a (H1 & H2 & H3 & H4 & H5 & H6).
  destruct (open_listener_frame s0 a) as (G1 & G2 & G3 & G4 & G5 & G6).
  repeat split; congruence.
Qed.

Lemma on_message_never_sends (s : MutationServer) (data : string) (e : Effect) :
  In e (snd (on_message JSON_parse s data)) -> is_send e = false.
Proof.
  unfold on_message.
  destruct (JSON_parse data) as [response|]; simpl.
  2:{ intros [<-|[]]. reflexivity. }
  destruct (truthy response); simpl; [|intros []].
  destruct (truthy (get response "id")); simpl.
  - destruct (rpcClient s) as [client|]; simpl.
    + pose proof (receive_effects client response e) as H.
      destruct (receive client response) as [c' eff]. simpl in *.
      intros [<-|Hin]; auto.
      destruct (H Hin) as [(i & r & ->)|(i & ->)]; reflexivity.
    + intros [<-|[]]. reflexivity.
  - pose proof (subject_next_effects (observers s) response e) as H.
    destruct (subject_next (observers s) response) as [obs eff]. simpl in *.
    intros [<-|Hin]; auto.
    destruct (H Hin) as [(c & v & ->)| ->]; reflexivity.
Qed.

Lemma request_send_open (s : MutationServer) (client : JSONRPCClient)
      (method : string) (params : JSValue) (text : string) :
  In (webSocket_send text) (snd (request JSON_stringify s client method params)) ->
  exists socket,
    webSocket s = Some socket /\ readyState socket = OPEN
    /\ webSocket (fst (request JSON_stringify s client method params)) = Some socket.
Proof.
  destruct (webSocket s) as [socket|] eqn:Hsock.
  - rewrite (request_on_socket s socket client method params Hsock).
    destruct (ReadyState_eqb (readyState socket) OPEN) eqn:Hopen; simpl;
      [|intros []].
    intros _. exists socket. apply ReadyState_eqb_eq in Hopen. auto.
  - unfold request, send_adapter. simpl. rewrite Hsock. simpl.
    intros [H|[]]. discriminate.
Qed.

(** Whenever handling one event writes a frame, the socket is [OPEN] when
    the event has been handled; and the event is either ['open'] itself or
    found the socket already [OPEN]. *)
Lemma step_send_open (s : MutationServer) (e : Event) (text : string) :
  In (webSocket_send text) (snd (step_ s e)) ->
  exists socket,
    webSocket (fst (step_ s e)) = Some socket /\ readyState socket = OPEN
    /\ (e = socket_open
        \/ exists before, webSocket s = Some before /\ readyState before = OPEN).
Proof.
  destruct e; simpl.
  - intros [H|[]]; discriminate.
  - intros H. apply on_stdout_never_sends in H. discriminate.
  - intros [H|[]]; discriminate.
  - destruct (webSocket s) as [socket|] eqn:Hsock; simpl; [|tauto].
    destruct (readyState socket) eqn:Hready; simpl; try tauto.
    intros _.
    destruct (emit_open_frame (open_listeners socket)
                (set_webSocket (Some (set_readyState OPEN socket)) s))
      as (_ & _ & H & _).
    rewrite H. simpl. eauto.
  - destruct (webSocket s); simpl; tauto.
  - destruct (webSocket s); simpl; [|tauto].
    intros [H|[H|[]]]; discriminate.
  - destruct (webSocket s); simpl; [|tauto].
    intros H. apply on_message_never_sends in H. discriminate.
  - unfold instrument. destruct (rpcClient s) as [client|]; simpl.
    + intros H. apply request_send_open in H.
      destruct H as (socket & H1 & H2 & H3). simpl in *.
      exists socket. repeat split; auto. right. exists socket. auto.
    + intros [H|[]]; discriminate.
  - unfold mutate. destruct (rpcClient s) as [client|]; simpl.
    + intros H. apply request_send_open in H.
      destruct H as (socket & H1 & H2 & H3). simpl in *.
      exists socket. repeat split; auto. right. exists socket. auto.
    + intros [H|[]]; discriminate.
Qed.

(** *** C6 *)

(** C6.  In every run of the server, a frame is written to the socket only
    while the socket is [OPEN]: each [webSocket.send] happens in the
    handling of some event after which the socket is [OPEN], and that event
    is either the ['open'] event itself (the adapter had been waiting for
    it) or a call that found the socket already [OPEN]. *)
Theorem send_only_on_open_socket
        (s : MutationServer) (events : list Event) (text : string) :
  In (webSocket_send text) (snd (run_ s events)) ->
  exists before e after socket,
    events = before ++ e :: after
    /\ In (webSocket_send text) (snd (step_ (fst (run_ s before)) e))
    /\ webSocket (fst (step_ (fst (run_ s before)) e)) = Some socket
    /\ readyState socket = OPEN
    /\ (e = socket_open
        \/ exists earlier,
             webSocket (fst (run_ s before)) = Some earlier
             /\ readyState earlier = OPEN).
Proof.
  revert s. induction events as [|e rest IH]; intros s; [simpl; tauto|].
  rewrite run_cons. simpl. rewrite in_app_iff. intros [H|H].
  - destruct (step_send_open s e text H) as (socket & H1 & H2 & H3).
    exists [], e, rest, socket. simpl. auto.
  - destruct (IH _ H) as (before & e' & after & socket & -> & H1 & H2 & H3 & H4).
    exists (e :: before), e', after, socket.
    rewrite run_cons. simpl. auto.
Qed.

(** Every frame written when ['open'] is emitted is the serialized request
    of a send task whose wait is now fulfilled. *)
Lemma emit_open_sends (listeners : list nat) (s : MutationServer) (text : string) :
  let r := for_each (open_listener JSON_stringify) listeners s in
  In (webSocket_send text) (snd r) ->
  exists p task,
    nth_error (sends (fst r)) p = Some task
    /\ opened task = Fulfilled tt
    /\ text = JSON_stringify (jsonRpcRequest task).
Proof.
  revert s. induction listeners as [|q rest IH]; intros s; simpl; [intros []|].
  assert (Hhead : forall text,
             In (webSocket_send text) (snd (open_listener JSON_stringify s q)) ->
             exists task,
               nth_error (sends (fst (open_listener JSON_stringify s q))) q = Some task
               /\ opened task = Fulfilled tt
               /\ text = JSON_stringify (jsonRpcRequest task)).
  { intros text0. unfold open_listener.
    destruct (nth_error (sends s) q) as [task|] eqn:Hq; simpl; [|intros []].
    destruct (opened task) eqn:Ho; simpl; try contradiction.
    intros [H|[]]. injection H as <-.
    eexists. split; [eapply nth_error_update_nth_eq; eauto|]. auto. }
  destruct (open_listener JSON_stringify s q) as [s1 e1]. simpl in Hhead.
  specialize (IH s1).
  pose proof (fun p t (H : nth_error (sends s1) p = Some t) (Ho : opened t <> Pending) =>
                for_each_state (fun s' => nth_error (sends s') p = Some t)
                  (open_listener JSON_stringify) rest s1
                  (fun s0 a H0 => open_listener_settled s0 a p t H0 Ho) H) as Hkeep.
  destruct (for_each (open_listener JSON_stringify) rest s1) as [s2 e2].
  simpl in *. rewrite in_app_iff. intros [H|H].
  - destruct (Hhead _ H) as (task & H1 & H2 & H3).
    exists q, task. split; auto. apply Hkeep; auto. congruence.
  - auto.
Qed.

(** The message handler touches only the observers and the RPC client. *)
Lemma on_message_frame (s : MutationServer) (data : string) :
  let s' := fst (on_message JSON_parse s data) in
  stdout_listeners s' = stdout_listeners s /\ started s' = started s
  /\ webSocket s' = webSocket s /\ sends s' = sends s.
Proof.
  unfold on_message.
  destruct (JSON_parse data) as [response|]; simpl; auto.
  destruct (truthy response); simpl; auto.
  destruct (truthy (get response "id")); simpl.
  - destruct (rpcClient s) as [client|]; simpl; auto.
    destruct (receive client response); simpl; auto.
  - destruct (subject_next (observers s) response); simpl; auto.
Qed.

(** A wait registered on a connecting socket stays registered and pending
    as long as the socket delivers no ['open'], ['close'] or ['error']. *)
Lemma waiting_while_connecting (s : MutationServer) (e : Event)
      (p : nat) (task : SendTask) :
  socket_event e = false ->
  waiting p task s ->
  waiting p task (fst (step_ s e)).
Proof.
  intros Hq (socket & port & Hsock & Hready & Hin & Hp & Hst & Hpend).
  assert (Hcall : forall s0 client method params,
             stdout_listeners s0 = stdout_listeners s -> started s0 = started s ->
             webSocket s0 = webSocket s -> sends s0 = sends s ->
             waiting p task (fst (request JSON_stringify s0 client method params))).
  { intros s0 client method params _ E2 E3 E4.
    rewrite (request_on_socket s0 socket); [|congruence].
    rewrite Hready. simpl.
    exists (mkWebSocket (url socket) CONNECTING (open_listeners socket ++ [length (sends s0)])),
           port.
    simpl. rewrite E4. repeat split; auto.
    - apply in_or_app; auto.
    - rewrite nth_error_app1; auto. apply nth_error_Some. congruence.
    - congruence. }
  destruct e; simpl in *; try discriminate.
  - exists socket, port. auto 10.
  - rewrite on_stdout_settled by congruence. exists socket, port. auto 10.
  - exists socket, port. auto 10.
  - rewrite Hsock.
    destruct (on_message_frame s data) as (_ & H2 & H3 & H4).
    exists socket, port. rewrite H2, H3, H4. auto 10.
  - unfold instrument. destruct (rpcClient s) as [client|]; simpl.
    + apply Hcall; auto.
    + exists socket, port. auto 10.
  - unfold mutate. destruct (rpcClient s) as [client|]; simpl.
    + apply Hcall; auto.
    + exists socket, port. auto 10.
Qed.

Lemma waiting_run (s : MutationServer) (events : list Event)
      (p : nat) (task : SendTask) :
  Forall (fun e => socket_event e = false) events ->
  waiting p task s ->
  waiting p task (fst (run_ s events)).
Proof.
  revert s. induction events as [|e rest IH]; intros s Hq Hw; [exact Hw|].
  rewrite run_cons. simpl. inversion Hq; subst.
  apply IH; auto. apply waiting_while_connecting; auto.
Qed.

(** *** C9 *)

(** C9.  [waitForOpenSocket] on a socket that is already [OPEN] returns a
    fulfilled promise and leaves the socket as it is: no ['open'] listener
    is added, however often it is called.  On a socket that is still
    connecting it registers one listener and returns a pending promise; the
    promise stays pending while the socket delivers no event, and the next
    ['open'] event fulfils it (whereupon the adapter that awaited it writes
    its request). *)
Theorem waitForOpenSocket_resolves_once_open
        (s : MutationServer) (socket : WebSocket) (port : Z)
        (request : JSValue) (between : list Event) :
  webSocket s = Some socket ->
  started s = Fulfilled port ->
  Forall (fun e => socket_event e = false) between ->
  let promise := length (sends s) in
  (readyState socket = OPEN ->
   waitForOpenSocket socket promise = (socket, Fulfilled tt)
   /\ waitForOpenSocket (fst (waitForOpenSocket socket promise)) (S promise)
      = (socket, Fulfilled tt))
  /\ (readyState socket = CONNECTING ->
      waitForOpenSocket socket promise
      = (mkWebSocket (url socket) CONNECTING (open_listeners socket ++ [promise]),
         Pending)
      /\ exists s1,
          send_adapter JSON_stringify s request = Some (s1, [])
          /\ let s2 := fst (run_ s1 between) in
             nth_error (sends s2) promise = Some (mkSendTask request Pending)
             /\ nth_error (sends (fst (step_ s2 socket_open))) promise
                = Some (mkSendTask request (Fulfilled tt))
             /\ In (webSocket_send (JSON_stringify request))
                   (snd (step_ s2 socket_open))).
Proof.
  intros Hsock Hst Hq promise. split.
  - intros Hopen. unfold waitForOpenSocket. rewrite Hopen. simpl.
    rewrite Hopen. auto.
  - intros Hconn. unfold waitForOpenSocket at 1. rewrite Hconn. simpl.
    split; [reflexivity|].
    unfold send_adapter. rewrite Hsock. unfold waitForOpenSocket.
    rewrite Hconn. simpl. eexists. split; [reflexivity|].
    match goal with |- context [run_ ?x between] => set (s1 := x) end.
    assert (Hw : waiting promise (mkSendTask request Pending) s1).
    { eexists _, port. subst s1. simpl. repeat split; auto.
      - apply in_or_app. simpl. auto.
      - rewrite nth_error_app2 by auto. now rewrite Nat.sub_diag. }
    apply (waiting_run s1 between) in Hw; auto.
    destruct Hw as (socket2 & port2 & H1 & H2 & H3 & H4 & H5 & _).
    split; [exact H4|].
    simpl. rewrite H1, H2.
    apply (emit_open_resolves (open_listeners socket2)
             (set_webSocket (Some (set_readyState OPEN socket2))
                            (fst (run_ s1 between)))
             promise (mkSendTask request Pending)); auto.
Qed.

Lemma emit_open_effects (listeners : list nat) (s : MutationServer) (e : Effect) :
  In e (snd (for_each (open_listener JSON_stringify) listeners s)) ->
  exists text, e = webSocket_send text.
Proof.
  apply (for_each_effects (fun _ => True) (fun e => exists text, e = webSocket_send text));
    auto.
  intros s0 q e0 _. unfold open_listener.
  destruct (nth_error (sends s0) q) as [task|]; simpl; [|intros []].
  destruct (opened task); simpl; try contradiction.
  intros [<-|[]]. eauto.
Qed.

Lemma request_sends (s : MutationServer) (client : JSONRPCClient)
      (method : string) (params : JSValue) :
  exists more,
    sends (fst (request JSON_stringify s client method params)) = sends s ++ more.
Proof.
  destruct (webSocket s) as [socket|] eqn:Hsock.
  - rewrite (request_on_socket s socket client method params Hsock).
    destruct (ReadyState_eqb (readyState socket) OPEN); simpl; eauto.
  - unfold request, send_adapter. simpl. rewrite Hsock. simpl.
    exists []. now rewrite app_nil_r.
Qed.

(** A wait, once made, changes only when ['open'] is emitted, and then from
    pending to fulfilled: no event rejects it, no other event settles it. *)
Lemma step_wait (s : MutationServer) (e : Event) (p : nat) (t : SendTask) :
  nth_error (sends s) p = Some t ->
  nth_error (sends (fst (step_ s e))) p = Some t
  \/ (e = socket_open /\ opened t = Pending
      /\ nth_error (sends (fst (step_ s e))) p
         = Some (mkSendTask (jsonRpcRequest t) (Fulfilled tt))).
Proof.
  intros Hp.
  assert (Hcall : forall s0 client method params,
             sends s0 = sends s ->
             nth_error (sends (fst (request JSON_stringify s0 client method params))) p
             = Some t).
  { intros s0 client method params E.
    destruct (request_sends s0 client method params) as (more & ->).
    rewrite nth_error_app1; [congruence|].
    apply nth_error_Some. congruence. }
  destruct e; simpl; auto.
  - destruct (on_stdout_frame s chunk) as (_ & _ & ->). auto.
  - destruct (webSocket s) as [socket|]; simpl; auto.
    destruct (readyState socket); simpl; auto.
    match goal with |- context [for_each ?f ?l ?s0] =>
      assert (H : nth_error (sends (fst (for_each f l s0))) p = Some t
                  \/ (opened t = Pending
                      /\ nth_error (sends (fst (for_each f l s0))) p
                         = Some (mkSendTask (jsonRpcRequest t) (Fulfilled tt))))
    end.
    { apply (for_each_state
               (fun s' => nth_error (sends s') p = Some t
                          \/ (opened t = Pending
                              /\ nth_error (sends s') p
                                 = Some (mkSendTask (jsonRpcRequest t) (Fulfilled tt)))));
        [|simpl; auto].
      intros s0 q [H|[Ht H]].
      - destruct (Nat.eq_dec q p) as [->|Hne].
        + unfold open_listener. rewrite H.
          destruct (opened t) eqn:Ho; simpl; auto.
          right. split; auto. eapply nth_error_update_nth_eq; eauto.
        + rewrite open_listener_other; auto.
      - right. split; auto. apply open_listener_settled; auto. discriminate. }
    tauto.
  - destruct (webSocket s); simpl; auto.
  - destruct (webSocket s); simpl; auto.
  - destruct (webSocket s); simpl; auto.
    destruct (on_message_frame s data) as (_ & _ & _ & ->). auto.
  - unfold instrument. destruct (rpcClient s); simpl; auto.
  - unfold mutate. destruct (rpcClient s); simpl; auto.
Qed.

(** A socket that left [CONNECTING] without having been open stays that
    way, and so do the waits. *)
Lemma never_opened_step (s : MutationServer) (e : Event) :
  never_opened s -> never_opened (fst (step_ s e)).
Proof.
  intros (socket & port & Hsock & Hready & Hst & Hpend).
  assert (Hclosed : ReadyState_eqb (readyState socket) OPEN = false).
  { destruct Hready as [-> | ->]; reflexivity. }
  assert (Hcall : forall s0 client method params,
             started s0 = started s -> webSocket s0 = webSocket s ->
             sends s0 = sends s ->
             never_opened (fst (request JSON_stringify s0 client method params))).
  { intros s0 client method params E1 E2 E3.
    rewrite (request_on_socket s0 socket); [|congruence].
    rewrite Hclosed. simpl.
    eexists _, port. simpl. repeat split; auto; try congruence.
    rewrite E3. apply Forall_app. split; auto. }
  destruct e; simpl.
  - exists socket, port; auto.
  - rewrite on_stdout_settled by congruence. exists socket, port; auto.
  - exists socket, port; auto.
  - rewrite Hsock.
    destruct Hready as [Hr|Hr]; rewrite Hr; simpl; exists socket, port; auto.
  - rewrite Hsock. simpl.
    exists (set_readyState CLOSED socket), port. simpl. auto.
  - rewrite Hsock. simpl.
    eexists _, port. simpl. repeat split; auto.
    destruct Hready as [-> | ->]; auto.
  - rewrite Hsock.
    destruct (on_message_frame s data) as (_ & H2 & H3 & H4).
    exists socket, port. rewrite H2, H3, H4. auto.
  - unfold instrument. destruct (rpcClient s); simpl; auto.
    exists socket, port; auto.
  - unfold mutate. destruct (rpcClient s); simpl; auto.
    exists socket, port; auto.
Qed.

Lemma never_opened_run (s : MutationServer) (events : list Event) :
  never_opened s ->
  never_opened (fst (run_ s events))
  /\ (forall text, ~ In (webSocket_send text) (snd (run_ s events)))
  /\ (Forall (fun e => forall data, e <> socket_message data) events ->
      forall e, In e (snd (run_ s events)) -> is_settled e = false).
Proof.
  revert s. induction events as [|e rest IH]; intros s Hs.
  - simpl. repeat split; auto; tauto.
  - rewrite run_cons. simpl.
    pose proof (never_opened_step s e Hs) as Hs1.
    destruct (IH _ Hs1) as (IH1 & IH2 & IH3).
    split; [exact IH1|]. split.
    + intros text. rewrite in_app_iff. intros [H|H]; [|eapply IH2; eauto].
      destruct (step_send_open s e text H) as (socket & H1 & H2 & _).
      destruct Hs1 as (socket' & port & G1 & G2 & _).
      rewrite G1 in H1. injection H1 as ->.
      destruct G2; congruence.
    + intros Hq eff. inversion Hq as [|? ? Hne Hq']; subst.
      rewrite in_app_iff. intros [H|H]; [|eapply IH3; eauto].
      destruct Hs as (socket & port & Hsock & Hready & Hst & Hpend).
      assert (Hclosed : ReadyState_eqb (readyState socket) OPEN = false).
      { destruct Hready as [-> | ->]; reflexivity. }
      destruct e; simpl in H.
      * destruct H as [<-|[]]; reflexivity.
      * apply on_stdout_effects in H.
        destruct H as [(m & ->)|[(p & ->)|(u & ->)]]; reflexivity.
      * destruct H as [<-|[]]; reflexivity.
      * rewrite Hsock in H.
        destruct Hready as [Hr|Hr]; rewrite Hr in H; destruct H.
      * rewrite Hsock in H. destruct H.
      * rewrite Hsock in H. destruct H as [<-|[<-|[]]]; reflexivity.
      * exfalso. eapply Hne; eauto.
      * unfold instrument in H. destruct (rpcClient s); simpl in H.
        -- rewrite (request_on_socket s socket) in H by auto.
           rewrite Hclosed in H. destruct H.
        -- destruct H as [<-|[]]; reflexivity.
      * unfold mutate in H. destruct (rpcClient s); simpl in H.
        -- rewrite (request_on_socket _ socket) in H by auto.
           rewrite Hclosed in H. destruct H.
        -- destruct H as [<-|[]]; reflexivity.
Qed.

(** *** C10 *)

(** C10.  The promise of [waitForOpenSocket] is never rejected, and a
    pending one is settled by nothing but an ['open'] event, which fulfils
    it.  Hence, when a connecting socket errors or closes before it was
    ever open, every wait, those made before and those made afterwards,
    stays pending for good: whatever happens later, no request is written
    to the socket, and as long as no frame is delivered (none can be, on a
    socket that never opened) no request settles, neither with a result nor
    with an error. *)
Theorem waitForOpenSocket_pending_forever
        (s : MutationServer) (socket : WebSocket) (port : Z)
        (first : Event) (later : list Event) :
  webSocket s = Some socket ->
  readyState socket = CONNECTING ->
  started s = Fulfilled port ->
  Forall (fun t => opened t = Pending) (sends s) ->
  first = socket_close \/ (exists err, first = socket_error err) ->
  let r := run_ s (first :: later) in
  Forall (fun t => opened t = Pending) (sends (fst r))
  /\ (forall text, ~ In (webSocket_send text) (snd r))
  /\ (Forall (fun e => forall data, e <> socket_message data) later ->
      forall e, In e (snd r) -> is_settled e = false)
  /\ (forall s0 e p t,
        nth_error (sends s0) p = Some t ->
        nth_error (sends (fst (step_ s0 e))) p = Some t
        \/ (e = socket_open /\ opened t = Pending
            /\ nth_error (sends (fst (step_ s0 e))) p
               = Some (mkSendTask (jsonRpcRequest t) (Fulfilled tt)))).
Proof.
  intros Hsock Hready Hst Hpend Hfirst r.
  assert (H1 : never_opened (fst (step_ s first))
               /\ forall e, In e (snd (step_ s first))
                            -> is_send e = false /\ is_settled e = false).
  { destruct Hfirst as [-> | (err & ->)]; simpl; rewrite Hsock; simpl.
    - split; [|tauto]. eexists _, port. simpl. auto.
    - split.
      + eexists _, port. simpl. rewrite Hready. auto.
      + intros e [<-|[<-|[]]]; auto. }
  destruct H1 as [H1 H2].
  destruct (never_opened_run _ later H1) as (G1 & G2 & G3).
  subst r. rewrite run_cons. simpl.
  split; [|split; [|split]].
  - destruct G1 as (socket' & port' & _ & _ & _ & G1). exact G1.
  - intros text. rewrite in_app_iff. intros [H|H]; [|eapply G2; eauto].
    apply H2 in H. destruct H. discriminate.
  - intros Hq e. rewrite in_app_iff. intros [H|H]; [|eapply G3; eauto].
    apply H2 in H. tauto.
  - intros s0 e p t. apply step_wait.
Qed.

Lemma request_frame (s : MutationServer) (client : JSONRPCClient)
      (method : string) (params : JSValue) :
  let s' := fst (request JSON_stringify s client method params) in
  stdout_listeners s' = stdout_listeners s /\ started s' = started s
  /\ observers s' = observers s.
Proof.
  destruct (webSocket s) as [socket|] eqn:Hsock.
  - rewrite (request_on_socket s socket client method params Hsock).
    destruct (ReadyState_eqb (readyState socket) OPEN); simpl; auto.
  - unfold request, send_adapter. simpl. rewrite Hsock. simpl. auto.
Qed.

Ltac solve_request_frame :=
  match goal with
  | |- context [request ?f ?s0 ?c ?m ?p] =>
      let H := fresh in
      pose proof (request_frame s0 c m p) as H; simpl in H; intuition congruence
  end.

Ltac solve_open_frame :=
  match goal with
  | |- context [for_each (open_listener ?f) ?l ?s0] =>
      let H := fresh in
      pose proof (emit_open_frame l s0) as H; simpl in H; intuition congruence
  end.

(** No event removes (or adds) a listener of [process.stdout]. *)
Lemma step_stdout_listeners (s : MutationServer) (e : Event) :
  stdout_listeners (fst (step_ s e)) = stdout_listeners s.
Proof.
  destruct e; simpl; auto.
  - apply on_stdout_frame.
  - destruct (webSocket s) as [socket|]; simpl; auto.
    destruct (readyState socket); simpl; auto.
    solve_open_frame.
  - destruct (webSocket s); simpl; auto.
  - destruct (webSocket s); simpl; auto.
  - destruct (webSocket s); simpl; auto. apply on_message_frame.
  - unfold instrument. destruct (rpcClient s); simpl; auto. apply request_frame.
  - unfold mutate. destruct (rpcClient s); simpl; auto. solve_request_frame.
Qed.

Lemma run_stdout_listeners (s : MutationServer) (events : list Event) :
  stdout_listeners (fst (run_ s events)) = stdout_listeners s.
Proof.
  revert s. induction events as [|e rest IH]; intros s; auto.
  rewrite run_cons. simpl. rewrite IH. apply step_stdout_listeners.
Qed.

(** The port promise changes only when a chunk on stdout matches the
    banner while it is pending, and then it is fulfilled. *)
Lemma step_started (s : MutationServer) (e : Event) :
  started (fst (step_ s e)) = started s
  \/ (started s = Pending
      /\ exists chunk digits,
          e = stdout_data chunk /\ exec_banner chunk = Some digits
          /\ started (fst (step_ s e)) = Fulfilled (parseInt digits)).
Proof.
  destruct e; simpl; auto.
  - destruct (on_stdout_started s chunk) as [H|(H & digits & Hexec & H')]; auto.
    right. split; auto. exists chunk, digits. auto.
  - destruct (webSocket s) as [socket|]; simpl; auto.
    destruct (readyState socket); simpl; auto.
    left. solve_open_frame.
  - destruct (webSocket s); simpl; auto.
  - destruct (webSocket s); simpl; auto.
  - destruct (webSocket s); simpl; auto. left. apply on_message_frame.
  - unfold instrument. destruct (rpcClient s); simpl; auto. left. apply request_frame.
  - unfold mutate. destruct (rpcClient s); simpl; auto. left. solve_request_frame.
Qed.

Lemma run_started_settled (s : MutationServer) (events : list Event) (port : Z) :
  started s = Fulfilled port -> started (fst (run_ s events)) = Fulfilled port.
Proof.
  revert s. induction events as [|e rest IH]; intros s Hs; auto.
  rewrite run_cons. simpl. apply IH.
  destruct (step_started s e) as [H|(H & _)]; congruence.
Qed.

Lemma run_started_pending (s : MutationServer) (events : list Event) :
  started s = Pending -> Forall no_banner events ->
  started (fst (run_ s events)) = Pending.
Proof.
  revert s. induction events as [|e rest IH]; intros s Hs Hq; auto.
  rewrite run_cons. simpl. inversion Hq as [|? ? He Hq']; subst.
  apply IH; auto.
  destruct (step_started s e) as [H|(_ & chunk & digits & -> & Hexec & _)];
    [congruence|].
  simpl in He. congruence.
Qed.

Lemma run_started_never_rejected (s : MutationServer) (events : list Event) :
  (forall reason, started s <> Rejected reason) ->
  forall reason, started (fst (run_ s events)) <> Rejected reason.
Proof.
  revert s. induction events as [|e rest IH]; intros s Hs; auto.
  rewrite run_cons. simpl. apply IH. intros reason.
  destruct (step_started s e) as [H|(_ & chunk & digits & _ & _ & H)];
    rewrite H; auto. discriminate.
Qed.

(** *** C4 *)

(** C4 (as the code has it). When the engine process exits before any chunk on
    stdout matched the banner, the port-discovery wait does not fail: the exit
    is logged and nothing else happens, the promise is still pending, it stays
    pending for as long as no later chunk matches the banner, and whatever
    happens afterwards it is never rejected. *)
Theorem port_wait_survives_exit
        (s : MutationServer) (before : list Event) (code : option Z)
        (after : list Event) :
  started s = Pending ->
  Forall no_banner before ->
  let s1 := fst (run_ s before) in
  let s2 := fst (step_ s1 (process_exit code)) in
  s2 = s1
  /\ (exists message, snd (step_ s1 (process_exit code)) = [logInfo message])
  /\ started s2 = Pending
  /\ (forall reason, started (fst (run_ s2 after)) <> Rejected reason)
  /\ (Forall no_banner after -> started (fst (run_ s2 after)) = Pending).
Proof.
  intros Hs Hq s1 s2.
  assert (H1 : started s1 = Pending) by (apply run_started_pending; auto).
  subst s2. simpl. repeat split; eauto.
  - apply run_started_never_rejected. intros reason. rewrite H1. discriminate.
  - intros Hafter. apply run_started_pending; auto.
Qed.

(** *** C5 *)

(** C5 (as the code has it). The port-discovery wait resolves with the decimal
    port of the first chunk on stdout that matches the banner, and the value it
    resolved with never changes afterwards. The scanning listener is not
    removed, though: the listeners of stdout are the same after any further
    events, every later chunk is still scanned, and a later chunk that matches
    the banner calls [resolve] again, with its own port and without effect on
    the promise. *)
Theorem port_wait_resolves_once_keeps_scanning
        (s : MutationServer) (before : list Event) (chunk digits : string)
        (after : list Event) (chunk' digits' : string) :
  In ScanForPort (stdout_listeners s) ->
  started s = Pending ->
  Forall no_banner before ->
  exec_banner chunk = Some digits ->
  exec_banner chunk' = Some digits' ->
  let s1 := fst (run_ s (before ++ [stdout_data chunk])) in
  let s2 := fst (run_ s1 after) in
  started s1 = Fulfilled (parseInt digits)
  /\ started s2 = Fulfilled (parseInt digits)
  /\ stdout_listeners s2 = stdout_listeners s
  /\ In (resolve_port (parseInt digits')) (snd (step_ s2 (stdout_data chunk')))
  /\ started (fst (step_ s2 (stdout_data chunk'))) = Fulfilled (parseInt digits).
Proof.
  intros Hin Hs Hq Hexec Hexec' s1 s2.
  assert (H1 : started s1 = Fulfilled (parseInt digits)).
  { subst s1. rewrite run_app. simpl.
    match goal with |- context [on_stdout_data ?s0 chunk] =>
      pose proof (scan_resolves s0 chunk digits) as H;
      destruct (on_stdout_data s0 chunk) as [s' e']
    end.
    simpl in *. apply H; auto.
    - now rewrite run_stdout_listeners.
    - apply run_started_pending; auto. }
  assert (H2 : started s2 = Fulfilled (parseInt digits))
    by (apply run_started_settled; auto).
  assert (H3 : stdout_listeners s2 = stdout_listeners s).
  { subst s2 s1. now rewrite !run_stdout_listeners. }
  repeat split; auto.
  - simpl. apply scan_calls_resolve; auto. now rewrite H3.
  - destruct (step_started s2 (stdout_data chunk')) as [H|(H & _)]; congruence.
Qed.

(** *** C3 *)

(** C3 (as the code has it). A progress notification whose params carry a token
    reaches exactly the subscriptions whose [partialResultToken] is strictly
    equal to that token: their callbacks are called with the value, in
    subscription order, and no other callback is called. So with two calls of
    distinct tokens [t1] and [t2], a notification for [t1] is filtered out by
    the [t2] subscription. A notification whose token is that of no [mutate]
    call made so far (running or completed) calls no callback and raises
    nothing; the subscriptions are left as they are. *)
Theorem progress_reaches_only_its_token
        (s : MutationServer) (socket : WebSocket) (data : string)
        (request : JSValue) :
  webSocket s = Some socket ->
  JSON_parse data = Some request ->
  truthy (get request "id") = false ->
  get request "method" = JString "progress" ->
  nullish (get request "params") = false ->
  Forall (fun o => nullish (obs_params o) = false) (observers s) ->
  let token := get (get request "params") "token" in
  let value := get (get request "params") "value" in
  let r := step_ s (socket_message data) in
  observers (fst r) = observers s
  /\ snd r = notification_next request :: callbacks_for token value (observers s)
  /\ (forall callback partial,
        In (onPartialResult callback partial) (snd r)
        <-> partial = value
            /\ exists o, In o (observers s) /\ obs_callback o = callback
                         /\ strict_eq token (obs_token o) = true)
  /\ (forall o1 o2,
        strict_eq token (obs_token o1) = true ->
        strict_eq (obs_token o1) (obs_token o2) = false ->
        strict_eq token (obs_token o2) = false)
  /\ ((forall o, In o (observers s) -> strict_eq token (obs_token o) = false) ->
      snd r = [notification_next request]).
Proof.
  intros Hsock Hparse Hid Hm Hp Hobs token value r.
  destruct (get_string_not_nullish _ _ _ Hm) as [_ Htruthy].
  assert (Hr : r = (set_observers (observers s) s,
                    notification_next request
                    :: callbacks_for token value (observers s))).
  { subst r. simpl. rewrite Hsock. unfold on_message.
    rewrite Hparse, Htruthy, Hid. simpl.
    rewrite subject_next_progress; auto. }
  rewrite Hr. simpl. split; [reflexivity|]. split; [reflexivity|].
  split; [|split].
  - intros callback partial. rewrite <- in_callbacks_for. split; auto.
    intros [G|G]; [discriminate|exact G].
  - intros o1 o2 G1 G2. apply strict_eq_true in G1. congruence.
  - intros G. now rewrite callbacks_for_none.
Qed.

(** No event unsubscribes: unless a chain threw while the event was
    handled, the subscriptions after it are those before it, followed by
    the one a call of [mutate] may have added. *)
Lemma step_observers (s : MutationServer) (e : Event) :
  (forall what, ~ In (uncaught what) (snd (step_ s e))) ->
  exists more, observers (fst (step_ s e)) = observers s ++ more.
Proof.
  assert (Hnil : exists more, observers s = observers s ++ more)
    by (exists []; now rewrite app_nil_r).
  destruct e; simpl; auto; intros Hno.
  - destruct (on_stdout_frame s chunk) as (_ & -> & _). auto.
  - destruct (webSocket s) as [socket|]; simpl; auto.
    destruct (readyState socket); simpl; auto.
    replace (observers _) with (observers s); auto. symmetry. solve_open_frame.
  - destruct (webSocket s); simpl; auto.
  - destruct (webSocket s); simpl; auto.
  - destruct (webSocket s); simpl in *; auto.
    unfold on_message in *.
    destruct (JSON_parse data) as [response|]; simpl in *; auto.
    destruct (truthy response); simpl in *; auto.
    destruct (truthy (get response "id")); simpl in *.
    + destruct (rpcClient s) as [client|]; simpl; auto.
      destruct (receive client response); simpl; auto.
    + pose proof (subject_next_keeps (observers s) response) as Hkeep.
      destruct (subject_next (observers s) response) as [obs effects].
      simpl in *. rewrite Hkeep; auto.
      intros what Hin. apply (Hno what). auto.
  - unfold instrument. destruct (rpcClient s); simpl; auto.
    replace (observers _) with (observers s); auto. symmetry. solve_request_frame.
  - unfold mutate. destruct (rpcClient s); simpl; auto.
    exists [mkObserver params callback]. solve_request_frame.
Qed.

Lemma run_observers (s : MutationServer) (events : list Event) :
  (forall what, ~ In (uncaught what) (snd (run_ s events))) ->
  exists more, observers (fst (run_ s events)) = observers s ++ more.
Proof.
  revert s. induction events as [|e rest IH]; intros s Hno.
  - exists []. simpl. now rewrite app_nil_r.
  - rewrite run_cons in *. simpl in *.
    destruct (step_observers s e) as (m1 & H1).
    { intros what Hin. apply (Hno what). apply in_or_app. auto. }
    destruct (IH (fst (step_ s e))) as (m2 & H2).
    { intros what Hin. apply (Hno what). apply in_or_app. auto. }
    exists (m1 ++ m2). rewrite H2, H1. now rewrite app_assoc.
Qed.

(** Once there is a socket there always is one. *)
Lemma step_keeps_socket (s : MutationServer) (e : Event) :
  webSocket s <> None -> webSocket (fst (step_ s e)) <> None.
Proof.
  intros Hs.
  destruct (webSocket s) as [socket|] eqn:Hsock; [clear Hs|congruence].
  destruct e; simpl; rewrite ?Hsock; simpl; try congruence.
  - apply on_stdout_keeps_socket. congruence.
  - destruct (readyState socket); simpl; try congruence.
    match goal with |- context [for_each (open_listener ?f) ?l ?x] =>
      destruct (emit_open_frame l x) as (_ & _ & -> & _) end.
    simpl. congruence.
  - destruct (on_message_frame s data) as (_ & _ & H & _).
    simpl in H. rewrite H. congruence.
  - unfold instrument. destruct (rpcClient s); simpl; try congruence.
    rewrite (request_on_socket s socket) by auto.
    destruct (ReadyState_eqb _ _); simpl; congruence.
  - unfold mutate. destruct (rpcClient s); simpl; try congruence.
    rewrite (request_on_socket _ socket) by auto.
    destruct (ReadyState_eqb _ _); simpl; congruence.
Qed.

Lemma run_keeps_socket (s : MutationServer) (events : list Event) :
  webSocket s <> None -> webSocket (fst (run_ s events)) <> None.
Proof.
  revert s. induction events as [|e rest IH]; intros s Hs; auto.
  rewrite run_cons. simpl. apply IH. now apply step_keeps_socket.
Qed.

(** *** C7 *)

(** C7.  A frame that [JSON.parse] rejects is logged with [logError] and
    dropped: the handler does nothing else (it throws nothing and calls
    neither the subject nor the RPC client) and leaves the server and its
    socket exactly as they were, so that every later event is handled as if
    the malformed frame had never arrived and the socket is still there.  In
    particular every later frame that parses is still classified and
    dispatched: a truthy message with a truthy [id] is handed to
    [rpcClient.receive], which settles the request that waits for it; a
    truthy message with a falsy [id] is handed to the notification subject,
    which runs its subscriptions; a falsy value is delivered nowhere. *)
Theorem malformed_frame_is_logged_and_dropped
        (s : MutationServer) (socket : WebSocket) (data : string)
        (later : list Event) (next : string) (response : JSValue) :
  webSocket s = Some socket ->
  JSON_parse data = None ->
  JSON_parse next = Some response ->
  let s' := fst (run_ s (socket_message data :: later)) in
  step_ s (socket_message data)
  = (s, [logError ("Error parsing JSON: " ++ data)%string])
  /\ run_ s (socket_message data :: later)
     = (fst (run_ s later),
        logError ("Error parsing JSON: " ++ data)%string :: snd (run_ s later))
  /\ webSocket s' <> None
  /\ step_ s' (socket_message next)
     = if truthy response then
         if truthy (get response "id") then
           match rpcClient s' with
           | Some client =>
               (set_rpcClient (Some (fst (receive client response))) s',
                rpcClient_receive response :: snd (receive client response))
           | None => (s', [uncaught "TypeError"])
           end
         else
           (set_observers (fst (subject_next (observers s') response)) s',
            notification_next response
            :: snd (subject_next (observers s') response))
       else (s', []).
Proof.
  intros Hsock Hparse Hnext s'.
  assert (Hstep : step_ s (socket_message data)
                  = (s, [logError ("Error parsing JSON: " ++ data)%string])).
  { simpl. rewrite Hsock. unfold on_message. now rewrite Hparse. }
  assert (Hrun : run_ s (socket_message data :: later)
                 = (fst (run_ s later),
                    logError ("Error parsing JSON: " ++ data)%string
                    :: snd (run_ s later))).
  { rewrite run_cons, Hstep. reflexivity. }
  assert (Halive : webSocket s' <> None).
  { subst s'. apply run_keeps_socket. congruence. }
  repeat split; auto.
  simpl step. destruct (webSocket s') as [socket'|]; [|congruence].
  unfold on_message. rewrite Hnext.
  destruct (truthy response); [|reflexivity].
  destruct (truthy (get response "id")); simpl.
  - destruct (rpcClient s') as [client|]; [|reflexivity].
    destruct (receive client response); reflexivity.
  - destruct (subject_next (observers s') response); reflexivity.
Qed.

(** *** C2 *)

(** C2 (as the code has it). The subscription [mutate] makes is not torn down
    when its request completes. After the response with the call's id has
    arrived (carrying a result or an error: the request settles and is no longer
    pending) the subscription is still among the observers of the notification
    subject; it is still there after any further events during which no
    subscription chain threw; and a progress notification carrying the call's
    token then still invokes the call's callback. *)
Theorem mutate_subscription_outlives_call
        (s : MutationServer) (socket : WebSocket) (client : JSONRPCClient)
        (params : JSValue) (callback : nat)
        (data : string) (response : JSValue)
        (between : list Event) (data' : string) (request : JSValue) :
  webSocket s = Some socket ->
  rpcClient s = Some client ->
  0 <= last_id client ->
  nullish params = false ->
  let id := last_id client + 1 in
  let s1 := fst (step_ s (call_mutate params callback)) in
  let completion := step_ s1 (socket_message data) in
  let s2 := fst (run_ (fst completion) between) in
  JSON_parse data = Some response ->
  get response "id" = JNumber id ->
  (forall what, ~ In (uncaught what) (snd (run_ (fst completion) between))) ->
  JSON_parse data' = Some request ->
  truthy (get request "id") = false ->
  get request "method" = JString "progress" ->
  nullish (get request "params") = false ->
  strict_eq (get (get request "params") "token")
            (get params "partialResultToken") = true ->
  snd completion = [rpcClient_receive response; settle id response]
  /\ (exists client', rpcClient (fst completion) = Some client'
                      /\ ~ In id (idToResolveMap client'))
  /\ In (mkObserver params callback) (observers (fst completion))
  /\ In (mkObserver params callback) (observers s2)
  /\ In (onPartialResult callback (get (get request "params") "value"))
        (snd (step_ s2 (socket_message data'))).
Proof.
  intros Hsock Hclient Hid0 Hparams id s1 completion s2
         Hparse Hrid Hno Hparse' Hnid Hm Hp Htok.
  assert (Hs1 : exists socket1,
             webSocket s1 = Some socket1
             /\ rpcClient s1 = Some (mkClient id (idToResolveMap client ++ [id]))
             /\ observers s1 = observers s ++ [mkObserver params callback]).
  { subst s1. simpl. unfold mutate. rewrite Hclient.
    rewrite (request_on_socket _ socket) by auto.
    destruct (ReadyState_eqb (readyState socket) OPEN); simpl; eauto. }
  destruct Hs1 as (socket1 & Hsock1 & Hclient1 & Hobs1).
  assert (Hresp : truthy response = true /\ truthy (get response "id") = true).
  { rewrite Hrid. destruct response; simpl in *; try discriminate.
    split; auto. apply negb_true_iff, Z.eqb_neq. subst id. lia. }
  destruct Hresp as [Htr Htid].
  assert (Hc : completion
               = (set_rpcClient
                    (Some (mkClient id (remove_id id (idToResolveMap client ++ [id]))))
                    s1,
                  [rpcClient_receive response; settle id response])).
  { subst completion. simpl. rewrite Hsock1. unfold on_message.
    rewrite Hparse, Htr, Htid. simpl. rewrite Hclient1.
    unfold receive. rewrite Hrid. simpl.
    rewrite existsb_app. simpl. rewrite Z.eqb_refl, orb_true_r. reflexivity. }
  assert (Hin2 : In (mkObserver params callback) (observers s2)).
  { subst s2. destruct (run_observers _ _ Hno) as (more & ->).
    rewrite Hc. simpl. rewrite Hobs1. rewrite !in_app_iff. simpl. auto. }
  rewrite Hc in *. simpl. repeat split; auto.
  - eexists. split; [reflexivity|]. simpl. apply remove_id_not_in.
  - rewrite Hobs1. apply in_or_app. simpl. auto.
  - assert (Hsock2 : webSocket s2 <> None).
    { subst s2. apply run_keeps_socket. rewrite Hc. simpl. congruence. }
    destruct (webSocket s2) as [socket2|] eqn:E; [|congruence].
    destruct (get_string_not_nullish _ _ _ Hm) as [_ Htruthy].
    unfold on_message. rewrite Hparse', Htruthy, Hnid. simpl.
    pose proof (subject_next_invokes (observers s2) request
                  (mkObserver params callback) Hin2 Hm Hp Hparams Htok) as Hcall.
    destruct (subject_next (observers s2) request). simpl in *. auto.
Qed.

(** *** The states the server reaches *)

Lemma on_message_client (s : MutationServer) (data : string) (client : JSONRPCClient) :
  rpcClient s = Some client ->
  exists client',
    rpcClient (fst (on_message JSON_parse s data)) = Some client'
    /\ last_id client' = last_id client.
Proof.
  intros Hc. unfold on_message.
  destruct (JSON_parse data) as [response|]; simpl; eauto.
  destruct (truthy response); simpl; eauto.
  destruct (truthy (get response "id")); simpl.
  - rewrite Hc. unfold receive.
    destruct (get response "id"); simpl; eauto.
    destruct (existsb _ _); simpl; eauto.
  - destruct (subject_next (observers s) response); simpl; eauto.
Qed.

Lemma step_consistent (s : MutationServer) (e : Event) :
  consistent s -> consistent (fst (step_ s e)).
Proof.
  intros [Hscan Hs]. split; [now rewrite step_stdout_listeners|].
  unfold connection_consistent in Hs.
  destruct (webSocket s) as [socket|] eqn:Hsock.
  - destruct Hs as ((port & Hst) & (client & Hc & Hid) & Hpend).
    assert (Hsame : (exists port0, started s = Fulfilled port0)
                    /\ (exists client0, rpcClient s = Some client0 /\ 0 <= last_id client0)
                    /\ (readyState socket = CONNECTING ->
                        Forall (fun t => opened t = Pending) (sends s))).
    { split; [eauto|]. split; [eauto|]. exact Hpend. }
    assert (Hcall : forall s0 method params,
               started s0 = started s -> webSocket s0 = webSocket s ->
               sends s0 = sends s ->
               connection_consistent
                 (fst (request JSON_stringify s0 client method params))).
    { intros s0 method params E1 E2 E3. unfold connection_consistent.
      rewrite (request_on_socket s0 socket) by congruence.
      destruct (ReadyState_eqb (readyState socket) OPEN) eqn:Hopen; simpl.
      - apply ReadyState_eqb_eq in Hopen. repeat split.
        + exists port. congruence.
        + eexists. split; [reflexivity|]. simpl. lia.
        + congruence.
      - repeat split.
        + exists port. congruence.
        + eexists. split; [reflexivity|]. simpl. lia.
        + intros Hr. rewrite E3. apply Forall_app. split; auto. }
    destruct e; unfold connection_consistent; simpl; rewrite ?Hsock; simpl;
      rewrite ?Hsock; auto.
    + rewrite on_stdout_settled by congruence. rewrite Hsock. exact Hsame.
    + destruct (readyState socket) eqn:Hr; simpl; rewrite ?Hsock;
        try (repeat split; eauto; intros; congruence).
      match goal with |- context [for_each (open_listener ?f) ?l ?x] =>
        destruct (emit_open_frame l x) as (_ & F2 & F3 & F4 & _) end.
      simpl in *. rewrite F3, F2, F4. repeat split; eauto. discriminate.
    + repeat split; eauto. discriminate.
    + repeat split; eauto. destruct (readyState socket); discriminate.
    + destruct (on_message_frame s data) as (_ & F2 & F3 & F4).
      destruct (on_message_client s data client Hc) as (client' & Hc' & Hid').
      simpl in *. rewrite F3, F2, F4, Hsock, Hc'. repeat split; eauto.
      exists client'. split; auto. congruence.
    + unfold instrument. rewrite Hc. apply (Hcall s); auto.
    + unfold mutate. rewrite Hc.
      apply (Hcall (set_observers (observers s ++ [mkObserver params callback]) s));
        auto.
  - destruct Hs as (Hst & Hc & Hsends).
    destruct e; unfold connection_consistent; simpl; rewrite ?Hsock; simpl;
      rewrite ?Hsock; auto.
    + unfold on_stdout_data.
      pose proof (heard_frame chunk (stdout_listeners s) s) as Hf.
      pose proof (heard_started chunk (stdout_listeners s) s) as Hh.
      destruct (for_each (stdout_listener chunk) (stdout_listeners s) s) as [s1 heard].
      simpl in *. destruct Hf as (_ & F2 & F3 & _ & F5).
      rewrite Hst in *.
      destruct (started s1) eqn:Hs1; simpl.
      * rewrite F2, Hsock, F3, F5. auto.
      * rewrite F5, Hsends. repeat split; eauto.
        eexists. split; [reflexivity|]. simpl. lia.
      * destruct Hh as [Hh|(digits & _ & Hh)]; discriminate.
    + unfold instrument. rewrite Hc. simpl. rewrite Hsock. auto.
    + unfold mutate. rewrite Hc. simpl. rewrite Hsock. auto.
Qed.

Lemma run_consistent (s : MutationServer) (events : list Event) :
  consistent s -> consistent (fst (run_ s events)).
Proof.
  revert s. induction events as [|e rest IH]; intros s Hs; auto.
  rewrite run_cons. simpl. apply IH. now apply step_consistent.
Qed.

End Server.

(** *** Construction *)

Section Construction.

Variable spawn : string -> list string -> string -> Completion (option Z).
Variable mutationServerExecutablePathNotSet : string.
Variable mutationServerFailed : string.

Local Abbreviation constructor_ :=
  (constructor spawn mutationServerExecutablePathNotSet mutationServerFailed).

(** *** C8 *)

(** C8 (as the code has it).  The constructor raises one of its two logged
    errors exactly when the executable path is unset (undefined or empty) or
    when [spawn] returns a child without pid: in the first case it logs and
    throws [mutationServerExecutablePathNotSet], in the second it logs the
    failed-to-start message and throws [mutationServerFailed]; in both it
    logs exactly one error and returns no instance.  It fails in two more
    cases, and then logs nothing: when a path is configured and no workspace
    folder is open, reading the working directory for [spawn] throws a
    [TypeError]; when [spawn] itself throws, the constructor throws the
    same.  It fails in no other case: with a path, a first workspace folder
    and a child with a pid it returns the instance, logs nothing and throws
    nothing. *)
Theorem constructor_failure_cases (w : Workspace) :
  let unset :=
    mutationServerExecutablePath w = None
    \/ mutationServerExecutablePath w = Some EmptyString in
  let configured path :=
    mutationServerExecutablePath w = Some path /\ path <> EmptyString in
  let no_folder :=
    workspaceFolders w = None \/ workspaceFolders w = Some [] in
  let spawned path cwd :=
    configured path /\ exists others, workspaceFolders w = Some (cwd :: others) in
  let args := port_args (mutationServerPort w) in
  (unset ->
   constructor_ w
   = (Throw (Error mutationServerExecutablePathNotSet),
      [logError mutationServerExecutablePathNotSet]))
  /\ (forall path cwd,
        spawned path cwd -> spawn path args cwd = Normal None ->
        constructor_ w
        = (Throw (Error mutationServerFailed),
           [logError (failed_to_start path (mutationServerPort w))]))
  /\ (forall path,
        configured path -> no_folder -> constructor_ w = (Throw TypeError, []))
  /\ (forall path cwd e,
        spawned path cwd -> spawn path args cwd = Throw e ->
        constructor_ w = (Throw e, []))
  /\ (forall path cwd pid,
        spawned path cwd -> spawn path args cwd = Normal (Some pid) ->
        constructor_ w = (Normal (mkServer [LogStdout] Pending None None [] []), []))
  /\ (forall e effects,
        constructor_ w = (Throw e, effects) ->
        ((unset \/ exists path cwd,
                     spawned path cwd /\ spawn path args cwd = Normal None)
         /\ exists logged, effects = [logError logged])
        \/ (((exists path, configured path /\ no_folder)
             \/ exists path cwd,
                  spawned path cwd /\ spawn path args cwd = Throw e)
            /\ effects = [])).
Proof.
  unfold constructor.
  destruct (mutationServerExecutablePath w) as [[|c path]|] eqn:Hpath; cbn zeta.
  - repeat split; auto.
    + intros path cwd ((Hp & Hne) & _). congruence.
    + intros path (Hp & Hne). congruence.
    + intros path cwd e ((Hp & Hne) & _). congruence.
    + intros path cwd pid ((Hp & Hne) & _). congruence.
    + intros e effects H. injection H as _ <-. left. split; eauto.
  - repeat split.
    + intros [H|H]; discriminate.
    + intros p cwd ((Hp & _) & others & Hw) Hpid.
      injection Hp as <-. rewrite Hw, Hpid. reflexivity.
    + intros p _ [Hw|Hw]; rewrite Hw; reflexivity.
    + intros p cwd e ((Hp & _) & others & Hw) Hpid.
      injection Hp as <-. rewrite Hw, Hpid. reflexivity.
    + intros p cwd pid ((Hp & _) & others & Hw) Hpid.
      injection Hp as <-. rewrite Hw, Hpid. reflexivity.
    + intros e effects.
      assert (Hconf : Some (String c path) = Some (String c path)
                      /\ String c path <> EmptyString) by (split; [reflexivity|discriminate]).
      destruct (workspaceFolders w) as [[|cwd others]|] eqn:Hw.
      * intros H. injection H as _ <-. right. split; eauto.
      * destruct (spawn _ _ cwd) as [[pid|]|e'] eqn:Hpid; intros H;
          try discriminate.
        -- injection H as _ <-. left. split; [|eauto].
           right. exists (String c path), cwd. eauto.
        -- injection H as <- <-. right. split; [|reflexivity].
           right. exists (String c path), cwd. eauto.
      * intros H. injection H as _ <-. right. split; eauto.
  - repeat split; auto.
    + intros path cwd ((Hp & Hne) & _). congruence.
    + intros path (Hp & Hne). congruence.
    + intros path cwd e ((Hp & Hne) & _). congruence.
    + intros path cwd pid ((Hp & Hne) & _). congruence.
    + intros e effects H. injection H as _ <-. left. split; eauto.
Qed.

(** The server [create] returns is consistent. *)
Lemma create_consistent (w : Workspace) (s : MutationServer) (effects : list Effect) :
  create spawn mutationServerExecutablePathNotSet mutationServerFailed w
  = (Normal s, effects) ->
  consistent s.
Proof.
  unfold create, constructor.
  destruct (mutationServerExecutablePath w) as [[|c path]|]; try discriminate.
  destruct (workspaceFolders w) as [[|cwd others]|]; try discriminate.
  destruct (spawn _ _ _) as [[pid|]|e]; try discriminate.
  intros H. injection H as <- _. split; [simpl; auto|].
  unfold connection_consistent. simpl. auto.
Qed.

End Construction.

(** Every state the server reaches after [create] is consistent: what the
    theorems above assume of the port promise, of the RPC client and of the
    pending waits holds of every server the class produces. *)
Lemma reached_server_consistent
      (JSON_parse : string -> option JSValue) (JSON_stringify : JSValue -> string)
      (spawn : string -> list string -> string -> Completion (option Z))
      (notSet failed : string)
      (w : Workspace) (s : MutationServer) (effects : list Effect)
      (events : list Event) :
  create spawn notSet failed w = (Normal s, effects) ->
  consistent (fst (run JSON_parse JSON_stringify failed s events)).
Proof.
  intros H. apply run_consistent. eapply create_consistent. exact H.
Qed.

(* ================================================================== *)
(** ** The properties on the concrete server *)

Example create_awaits_port :
  create Demo.spawn Demo.notSet Demo.failed Demo.workspace
  = (Normal Demo.awaiting_port, []).
Proof. reflexivity. Qed.

Example connecting_server :
  Demo.connecting
  = mkServer [LogStdout; ScanForPort] (Fulfilled 54321)
             (Some (mkWebSocket "ws://localhost:54321" CONNECTING []))
             (Some (mkClient 0 [])) [] [].
Proof. reflexivity. Qed.

(** *** C1 *)

(** A response whose [id] is 0 has an [id] field, yet it is handed to the
    notification subject and not to the RPC client; the frame [null] parses,
    has no [id] field, and is handed to neither. *)
Lemma falsy_id_routed_as_notification :
  JSON.parse Demo.result_0 = Some Demo.result_0_parsed
  /\ has_field Demo.result_0_parsed "id" = true
  /\ snd (Demo.step Demo.ready (socket_message Demo.result_0))
     = [notification_next Demo.result_0_parsed]
  /\ JSON.parse "null" = Some JNull
  /\ has_field JNull "id" = false
  /\ snd (Demo.step Demo.ready (socket_message "null")) = [].
Proof. repeat split; reflexivity. Qed.

Lemma message_routed_by_truthiness_of_id_witness :
  webSocket Demo.mutating = Some (mkWebSocket "ws://localhost:54321" OPEN [])
  /\ rpcClient Demo.mutating = Some (mkClient 1 [1])
  /\ JSON.parse Demo.result_1 = Some Demo.result_1_parsed
  /\ (exists rest,
         snd (Demo.step Demo.mutating (socket_message Demo.result_1))
         = rpcClient_receive Demo.result_1_parsed :: rest)
  /\ (forall v,
         ~ In (notification_next v)
              (snd (Demo.step Demo.mutating (socket_message Demo.result_1)))).
Proof.
  assert (H1 : webSocket Demo.mutating
               = Some (mkWebSocket "ws://localhost:54321" OPEN [])) by reflexivity.
  assert (H2 : rpcClient Demo.mutating = Some (mkClient 1 [1])) by reflexivity.
  assert (H3 : JSON.parse Demo.result_1 = Some Demo.result_1_parsed) by reflexivity.
  split; [exact H1|]. split; [exact H2|]. split; [exact H3|].
  exact (proj2 (message_routed_by_truthiness_of_id
                  JSON.parse JSON.stringify Demo.failed Demo.mutating _ _ _ _
                  H1 H2 H3)).
Defined.

(** *** C7 *)

Lemma malformed_frame_is_logged_and_dropped_witness :
  let later := [socket_message (Demo.progress "t1" "Killed")] in
  let s' := fst (Demo.run Demo.mutating (socket_message Demo.truncated :: later)) in
  webSocket Demo.mutating = Some (mkWebSocket "ws://localhost:54321" OPEN [])
  /\ JSON.parse Demo.truncated = None
  /\ JSON.parse Demo.result_1 = Some Demo.result_1_parsed
  /\ Demo.step Demo.mutating (socket_message Demo.truncated)
     = (Demo.mutating, [logError ("Error parsing JSON: " ++ Demo.truncated)%string])
  /\ Demo.run Demo.mutating (socket_message Demo.truncated :: later)
     = (fst (Demo.run Demo.mutating later),
        logError ("Error parsing JSON: " ++ Demo.truncated)%string
        :: snd (Demo.run Demo.mutating later))
  /\ webSocket s' <> None
  /\ Demo.step s' (socket_message Demo.result_1)
     = (set_rpcClient (Some (mkClient 1 [])) Demo.mutating,
        [rpcClient_receive Demo.result_1_parsed; request_resolved 1 JNull]).
Proof.
  intros later s'.
  assert (H1 : webSocket Demo.mutating
               = Some (mkWebSocket "ws://localhost:54321" OPEN [])) by reflexivity.
  assert (H2 : JSON.parse Demo.truncated = None) by reflexivity.
  assert (H3 : JSON.parse Demo.result_1 = Some Demo.result_1_parsed) by reflexivity.
  split; [exact H1|]. split; [exact H2|]. split; [exact H3|].
  exact (malformed_frame_is_logged_and_dropped
           JSON.parse JSON.stringify Demo.failed Demo.mutating _ _
           later _ _ H1 H2 H3).
Defined.

Example frames_after_a_malformed_one :
  snd (Demo.run Demo.mutating [socket_message Demo.truncated;
                               socket_message Demo.result_1;
                               socket_message (Demo.progress "t1" "Killed")])
  = [logError ("Error parsing JSON: " ++ Demo.truncated)%string;
     rpcClient_receive Demo.result_1_parsed;
     request_resolved 1 JNull;
     notification_next (Demo.progress_request "t1" "Killed");
     onPartialResult 7 (JString "Killed")].
Proof. reflexivity. Qed.

(** *** C2 *)

(** The call of [mutate] with token [t1] has completed, with a result or with
    an error; a progress notification for [t1] that arrives afterwards still
    invokes its callback. *)
Lemma callback_invoked_after_completion :
  snd (Demo.step Demo.mutating (socket_message Demo.result_1))
  = [rpcClient_receive Demo.result_1_parsed; request_resolved 1 JNull]
  /\ snd (Demo.step (fst (Demo.step Demo.mutating (socket_message Demo.result_1)))
                    (socket_message (Demo.progress "t1" "Killed")))
     = [notification_next (Demo.progress_request "t1" "Killed");
        onPartialResult 7 (JString "Killed")]
  /\ snd (Demo.step Demo.mutating (socket_message Demo.error_1))
     = [rpcClient_receive Demo.error_1_parsed; request_rejected 1]
  /\ snd (Demo.step (fst (Demo.step Demo.mutating (socket_message Demo.error_1)))
                    (socket_message (Demo.progress "t1" "Killed")))
     = [notification_next (Demo.progress_request "t1" "Killed");
        onPartialResult 7 (JString "Killed")].
Proof. repeat split; reflexivity. Qed.

Lemma mutate_subscription_outlives_call_witness :
  webSocket Demo.ready = Some (mkWebSocket "ws://localhost:54321" OPEN [])
  /\ rpcClient Demo.ready = Some (mkClient 0 [])
  /\ JSON.parse Demo.error_1 = Some Demo.error_1_parsed
  /\ JSON.parse (Demo.progress "t1" "Survived")
     = Some (Demo.progress_request "t1" "Survived")
  /\ snd (Demo.step Demo.mutating (socket_message Demo.error_1))
     = [rpcClient_receive Demo.error_1_parsed; request_rejected 1]
  /\ In (onPartialResult 7 (JString "Survived"))
        (snd (Demo.step
                (fst (Demo.run
                        (fst (Demo.step Demo.mutating (socket_message Demo.error_1)))
                        [stdout_data "Mutation run finished"; call_instrument JNull]))
                (socket_message (Demo.progress "t1" "Survived")))).
Proof.
  assert (H1 : webSocket Demo.ready
               = Some (mkWebSocket "ws://localhost:54321" OPEN [])) by reflexivity.
  assert (H2 : rpcClient Demo.ready = Some (mkClient 0 [])) by reflexivity.
  assert (H3 : JSON.parse Demo.error_1 = Some Demo.error_1_parsed) by reflexivity.
  assert (H4 : JSON.parse (Demo.progress "t1" "Survived")
               = Some (Demo.progress_request "t1" "Survived")) by reflexivity.
  destruct (mutate_subscription_outlives_call
              JSON.parse JSON.stringify Demo.failed Demo.ready _ _
              (Demo.mutate_params "t1") 7 Demo.error_1 Demo.error_1_parsed
              [stdout_data "Mutation run finished"; call_instrument JNull]
              (Demo.progress "t1" "Survived") (Demo.progress_request "t1" "Survived")
              H1 H2)
    as (G1 & _ & _ & _ & G5); try reflexivity.
  - vm_compute. intros what [H|[H|[]]]; discriminate.
  - repeat (split; [assumption|]). exact G5.
Defined.

(** *** C3 *)

(** Of two calls, the one with token [t1] has completed: only the call with
    token [t2] (request 2) is still pending.  A progress notification for
    [t1] matches no active call, and yet a callback is invoked. *)
Lemma token_of_completed_call_still_observed :
  rpcClient (fst (Demo.step Demo.mutating_twice (socket_message Demo.result_1)))
  = Some (mkClient 2 [2])
  /\ snd (Demo.step (fst (Demo.step Demo.mutating_twice (socket_message Demo.result_1)))
                    (socket_message (Demo.progress "t1" "Survived")))
     = [notification_next (Demo.progress_request "t1" "Survived");
        onPartialResult 1 (JString "Survived")].
Proof. repeat split; reflexivity. Qed.

Lemma progress_reaches_only_its_token_witness :
  webSocket Demo.mutating_twice
  = Some (mkWebSocket "ws://localhost:54321" OPEN [])
  /\ JSON.parse (Demo.progress "t1" "Killed")
     = Some (Demo.progress_request "t1" "Killed")
  /\ snd (Demo.step Demo.mutating_twice (socket_message (Demo.progress "t1" "Killed")))
     = [notification_next (Demo.progress_request "t1" "Killed");
        onPartialResult 1 (JString "Killed")]
  /\ snd (Demo.step Demo.mutating_twice (socket_message (Demo.progress "t3" "Killed")))
     = [notification_next (Demo.progress_request "t3" "Killed")].
Proof.
  assert (H1 : webSocket Demo.mutating_twice
               = Some (mkWebSocket "ws://localhost:54321" OPEN [])) by reflexivity.
  assert (H2 : forall t, JSON.parse (Demo.progress t "Killed")
                         = Some (Demo.progress_request t "Killed")
                         -> Forall (fun o => nullish (obs_params o) = false)
                                   (observers Demo.mutating_twice)).
  { intros _ _. repeat constructor. }
  assert (H3 : JSON.parse (Demo.progress "t1" "Killed")
               = Some (Demo.progress_request "t1" "Killed")) by reflexivity.
  assert (H4 : JSON.parse (Demo.progress "t3" "Killed")
               = Some (Demo.progress_request "t3" "Killed")) by reflexivity.
  destruct (progress_reaches_only_its_token
              JSON.parse JSON.stringify Demo.failed Demo.mutating_twice _
              (Demo.progress "t1" "Killed") (Demo.progress_request "t1" "Killed")
              H1 H3 eq_refl eq_refl eq_refl (H2 _ H3))
    as (_ & G1 & _).
  destruct (progress_reaches_only_its_token
              JSON.parse JSON.stringify Demo.failed Demo.mutating_twice _
              (Demo.progress "t3" "Killed") (Demo.progress_request "t3" "Killed")
              H1 H4 eq_refl eq_refl eq_refl (H2 _ H4))
    as (_ & _ & _ & _ & G2).
  split; [exact H1|]. split; [exact H3|]. split; [exact G1|].
  apply G2. intros o [<-|[<-|[]]]; reflexivity.
Defined.

(** *** C4 *)

(** The engine exits with code 1 before it printed the banner: the wait is
    pending, and whatever happens later it is never rejected. *)
Lemma port_wait_pending_after_exit :
  Demo.run Demo.awaiting_port [stdout_data "Starting mutation server"; process_exit (Some 1)]
  = (Demo.awaiting_port,
     [logInfo "[Mutation Server] Starting mutation server";
      logInfo "[Mutation Server] Exited with code 1"])
  /\ started Demo.awaiting_port = Pending
  /\ (forall later reason,
         started (fst (Demo.run Demo.awaiting_port later)) <> Rejected reason).
Proof.
  split; [reflexivity|]. split; [reflexivity|].
  intros later. apply run_started_never_rejected. discriminate.
Qed.

Lemma port_wait_survives_exit_witness :
  started Demo.awaiting_port = Pending
  /\ Forall no_banner [stdout_data "Starting mutation server"; stderr_data "deprecated flag"]
  /\ started (fst (Demo.run Demo.awaiting_port
                     [stdout_data "Starting mutation server";
                      stderr_data "deprecated flag";
                      process_exit (Some 1)]))
     = Pending
  /\ (forall reason,
         started (fst (Demo.run Demo.awaiting_port
                         [stdout_data "Starting mutation server";
                          stderr_data "deprecated flag";
                          process_exit (Some 1);
                          stdout_data "Server is listening on port: 54321"]))
         <> Rejected reason).
Proof.
  assert (H1 : started Demo.awaiting_port = Pending) by reflexivity.
  assert (H2 : Forall no_banner [stdout_data "Starting mutation server";
                                 stderr_data "deprecated flag"]).
  { repeat constructor. }
  destruct (port_wait_survives_exit
              JSON.parse JSON.stringify Demo.failed Demo.awaiting_port
              [stdout_data "Starting mutation server"; stderr_data "deprecated flag"]
              (Some 1) [stdout_data "Server is listening on port: 54321"] H1 H2)
    as (_ & _ & G3 & G4 & _).
  split; [exact H1|]. split; [exact H2|]. split; [exact G3|exact G4].
Defined.

(** *** C5 *)

(** The wait resolved with port 54321; the scanning listener is still
    registered, and a later banner-like chunk is matched again: [resolve] is
    called with 8080. *)
Lemma banner_matched_again_after_resolution :
  started Demo.ready = Fulfilled 54321
  /\ stdout_listeners Demo.ready = [LogStdout; ScanForPort]
  /\ Demo.step Demo.ready (stdout_data "Server is listening on port: 8080")
     = (Demo.ready,
        [logInfo "[Mutation Server] Server is listening on port: 8080";
         resolve_port 8080]).
Proof. repeat split; reflexivity. Qed.

Lemma port_wait_resolves_once_keeps_scanning_witness :
  In ScanForPort (stdout_listeners Demo.awaiting_port)
  /\ started Demo.awaiting_port = Pending
  /\ Forall no_banner [stdout_data "Starting mutation server"]
  /\ exec_banner "info Server is listening on port: 54321 (pid 4242)" = Some "54321"%string
  /\ exec_banner "Server is listening on port: 8080" = Some "8080"%string
  /\ started (fst (Demo.run Demo.awaiting_port
                     [stdout_data "Starting mutation server";
                      stdout_data "info Server is listening on port: 54321 (pid 4242)";
                      socket_open; call_instrument JNull]))
     = Fulfilled 54321
  /\ In (resolve_port 8080)
        (snd (Demo.step
                (fst (Demo.run Demo.awaiting_port
                        [stdout_data "Starting mutation server";
                         stdout_data "info Server is listening on port: 54321 (pid 4242)";
                         socket_open; call_instrument JNull]))
                (stdout_data "Server is listening on port: 8080"))).
Proof.
  assert (H1 : In ScanForPort (stdout_listeners Demo.awaiting_port)).
  { simpl. auto. }
  assert (H2 : started Demo.awaiting_port = Pending) by reflexivity.
  assert (H3 : Forall no_banner [stdout_data "Starting mutation server"]).
  { repeat constructor. }
  assert (H4 : exec_banner "info Server is listening on port: 54321 (pid 4242)"
               = Some "54321"%string) by reflexivity.
  assert (H5 : exec_banner "Server is listening on port: 8080" = Some "8080"%string)
    by reflexivity.
  destruct (port_wait_resolves_once_keeps_scanning
              JSON.parse JSON.stringify Demo.failed Demo.awaiting_port
              [stdout_data "Starting mutation server"] _ _
              [socket_open; call_instrument JNull] _ _ H1 H2 H3 H4 H5)
    as (_ & G2 & _ & G4 & _).
  repeat (split; [assumption|]). exact G4.
Defined.

(** *** C6 *)

Example queued_request_written_on_open :
  snd (Demo.run Demo.connecting
         [call_mutate (Demo.mutate_params "t1") 7; socket_open; call_instrument JNull])
  = [webSocket_send
       (JSON.stringify (createJSONRPCRequest 1 "mutate" (Demo.mutate_params "t1")));
     webSocket_send (JSON.stringify (createJSONRPCRequest 2 "instrument" JNull))]
  /\ snd (Demo.run Demo.connecting [call_mutate (Demo.mutate_params "t1") 7]) = [].
Proof. split; reflexivity. Qed.

Lemma send_only_on_open_socket_witness :
  In (webSocket_send
        (JSON.stringify (createJSONRPCRequest 1 "mutate" (Demo.mutate_params "t1"))))
     (snd (Demo.run Demo.connecting
             [call_mutate (Demo.mutate_params "t1") 7; socket_open;
              call_instrument JNull]))
  /\ exists before e after socket,
      [call_mutate (Demo.mutate_params "t1") 7; socket_open; call_instrument JNull]
      = before ++ e :: after
      /\ In (webSocket_send
               (JSON.stringify
                  (createJSONRPCRequest 1 "mutate" (Demo.mutate_params "t1"))))
            (snd (Demo.step (fst (Demo.run Demo.connecting before)) e))
      /\ webSocket (fst (Demo.step (fst (Demo.run Demo.connecting before)) e))
         = Some socket
      /\ readyState socket = OPEN
      /\ (e = socket_open
          \/ exists earlier,
               webSocket (fst (Demo.run Demo.connecting before)) = Some earlier
               /\ readyState earlier = OPEN).
Proof.
  assert (H1 : In (webSocket_send
                     (JSON.stringify
                        (createJSONRPCRequest 1 "mutate" (Demo.mutate_params "t1"))))
                  (snd (Demo.run Demo.connecting
                          [call_mutate (Demo.mutate_params "t1") 7; socket_open;
                           call_instrument JNull]))).
  { left. reflexivity. }
  split; [exact H1|].
  exact (send_only_on_open_socket
           JSON.parse JSON.stringify Demo.failed Demo.connecting _ _ H1).
Defined.

(** *** C9 *)

Lemma waitForOpenSocket_resolves_once_open_witness :
  webSocket Demo.ready = Some (mkWebSocket "ws://localhost:54321" OPEN [])
  /\ webSocket Demo.connecting
     = Some (mkWebSocket "ws://localhost:54321" CONNECTING [])
  /\ started Demo.connecting = Fulfilled 54321
  /\ Forall (fun e => socket_event e = false)
            [stdout_data "Waiting for connection"; call_instrument JNull]
  /\ waitForOpenSocket (mkWebSocket "ws://localhost:54321" OPEN []) 0
     = (mkWebSocket "ws://localhost:54321" OPEN [], Fulfilled tt)
  /\ waitForOpenSocket (mkWebSocket "ws://localhost:54321" CONNECTING []) 0
     = (mkWebSocket "ws://localhost:54321" CONNECTING [0%nat], Pending)
  /\ exists s1,
      send_adapter JSON.stringify Demo.connecting
                   (createJSONRPCRequest 1 "mutate" (Demo.mutate_params "t1"))
      = Some (s1, [])
      /\ nth_error
           (sends (fst (Demo.run s1 [stdout_data "Waiting for connection";
                                     call_instrument JNull])))
           0
         = Some (mkSendTask
                   (createJSONRPCRequest 1 "mutate" (Demo.mutate_params "t1")) Pending)
      /\ nth_error
           (sends (fst (Demo.step
                          (fst (Demo.run s1 [stdout_data "Waiting for connection";
                                             call_instrument JNull]))
                          socket_open)))
           0
         = Some (mkSendTask
                   (createJSONRPCRequest 1 "mutate" (Demo.mutate_params "t1"))
                   (Fulfilled tt)).
Proof.
  assert (H1 : webSocket Demo.ready
               = Some (mkWebSocket "ws://localhost:54321" OPEN [])) by reflexivity.
  assert (H2 : webSocket Demo.connecting
               = Some (mkWebSocket "ws://localhost:54321" CONNECTING []))
    by reflexivity.
  assert (H3 : started Demo.connecting = Fulfilled 54321) by reflexivity.
  assert (H3' : started Demo.ready = Fulfilled 54321) by reflexivity.
  assert (H4 : Forall (fun e => socket_event e = false)
                      [stdout_data "Waiting for connection"; call_instrument JNull]).
  { repeat constructor. }
  destruct (waitForOpenSocket_resolves_once_open
              JSON.parse JSON.stringify Demo.failed Demo.ready _ _
              JNull [] H1 H3' (Forall_nil _)) as [Gopen _].
  destruct (Gopen eq_refl) as [G1 _].
  destruct (waitForOpenSocket_resolves_once_open
              JSON.parse JSON.stringify Demo.failed Demo.connecting _ _
              (createJSONRPCRequest 1 "mutate" (Demo.mutate_params "t1"))
              _ H2 H3 H4) as [_ Gconn].
  destruct (Gconn eq_refl) as (G2 & s1 & G3 & G4 & G5 & _).
  repeat (split; [assumption|]).
  exists s1. auto.
Defined.

(** *** C10 *)

Lemma waitForOpenSocket_pending_forever_witness :
  webSocket Demo.queued
  = Some (mkWebSocket "ws://localhost:54321" CONNECTING [0%nat])
  /\ started Demo.queued = Fulfilled 54321
  /\ Forall (fun t => opened t = Pending) (sends Demo.queued)
  /\ Forall (fun t => opened t = Pending)
            (sends (fst (Demo.run Demo.queued
                           [socket_error "connect ECONNREFUSED"; socket_close;
                            call_instrument JNull; socket_open])))
  /\ (forall text,
         ~ In (webSocket_send text)
              (snd (Demo.run Demo.queued
                      [socket_error "connect ECONNREFUSED"; socket_close;
                       call_instrument JNull; socket_open])))
  /\ (forall e,
         In e (snd (Demo.run Demo.queued
                      [socket_error "connect ECONNREFUSED"; socket_close;
                       call_instrument JNull; socket_open])) ->
         is_settled e = false).
Proof.
  assert (H1 : webSocket Demo.queued
               = Some (mkWebSocket "ws://localhost:54321" CONNECTING [0%nat]))
    by reflexivity.
  assert (H2 : started Demo.queued = Fulfilled 54321) by reflexivity.
  assert (H3 : Forall (fun t => opened t = Pending) (sends Demo.queued)).
  { repeat constructor. }
  destruct (waitForOpenSocket_pending_forever
              JSON.parse JSON.stringify Demo.failed Demo.queued _ _
              (socket_error "connect ECONNREFUSED")
              [socket_close; call_instrument JNull; socket_open]
              H1 eq_refl H2 H3 (or_intror (ex_intro _ _ eq_refl)))
    as (G1 & G2 & G3 & _).
  repeat (split; [assumption|]).
  apply G3. repeat constructor; discriminate.
Defined.

Example socket_error_is_reported :
  snd (Demo.run Demo.queued [socket_error "connect ECONNREFUSED"; socket_close;
                             call_instrument JNull; socket_open])
  = [logError "WebSocket Error: connect ECONNREFUSED";
     errorNotification Demo.failed].
Proof. reflexivity. Qed.

(** *** C8 *)

(** The executable path is configured and [spawn] always returns a child
    with a pid, but no workspace folder is open: the constructor fails, with
    a [TypeError], and nothing is logged. *)
Lemma constructor_fails_without_workspace_folder :
  let w := mkWorkspace (Some "/usr/local/bin/stryker-server") None None in
  let result := constructor Demo.spawn Demo.notSet Demo.failed w in
  let fails := exists e effects, result = (Throw e, effects) in
  let unset :=
    mutationServerExecutablePath w = None
    \/ mutationServerExecutablePath w = Some EmptyString in
  let no_pid :=
    exists path cwd,
      Demo.spawn path (port_args (mutationServerPort w)) cwd = Normal None in
  result = (Throw TypeError, [])
  /\ fails /\ ~ unset /\ ~ no_pid
  /\ ~ (fails <-> unset \/ no_pid)
  /\ ~ (fails -> exists message, In (logError message) (snd result)).
Proof.
  cbn zeta.
  assert (Hfails : exists e effects,
             constructor Demo.spawn Demo.notSet Demo.failed
                         (mkWorkspace (Some "/usr/local/bin/stryker-server") None None)
             = (Throw e, effects)).
  { exists TypeError, []. reflexivity. }
  assert (Hset : ~ (Some "/usr/local/bin/stryker-server"%string = None
                    \/ Some "/usr/local/bin/stryker-server"%string = Some EmptyString)).
  { intros [H|H]; discriminate. }
  assert (Hpid : ~ exists path cwd : string,
                     Demo.spawn path (port_args None) cwd = Normal None).
  { intros (path & cwd & H). discriminate. }
  split; [reflexivity|]. split; [exact Hfails|]. split; [exact Hset|].
  split; [exact Hpid|]. split.
  - intros [H _]. destruct (H Hfails) as [G|G]; [exact (Hset G)|exact (Hpid G)].
  - intros H. destruct (H Hfails) as (message & []).
Qed.

Lemma constructor_failure_cases_witness :
  let w := mkWorkspace (Some "/opt/stryker") (Some 8080) (Some ["/home/dev/project"]) in
  let no_pid (path : string) (args : list string) (cwd : string)
    : Completion (option Z) := Normal None in
  (mutationServerExecutablePath w = Some "/opt/stryker"%string
   /\ "/opt/stryker"%string <> EmptyString)
  /\ (exists others, workspaceFolders w = Some ("/home/dev/project"%string :: others))
  /\ no_pid "/opt/stryker"%string (port_args (mutationServerPort w))
            "/home/dev/project"%string = Normal None
  /\ constructor no_pid Demo.notSet Demo.failed w
     = (Throw (Error Demo.failed),
        [logError (failed_to_start "/opt/stryker" (Some 8080))]).
Proof.
  intros w no_pid.
  assert (H1 : mutationServerExecutablePath w = Some "/opt/stryker"%string
               /\ "/opt/stryker"%string <> EmptyString)
    by (split; [reflexivity|discriminate]).
  assert (H2 : exists others,
             workspaceFolders w = Some ("/home/dev/project"%string :: others))
    by (exists []; reflexivity).
  assert (H3 : no_pid "/opt/stryker"%string (port_args (mutationServerPort w))
                      "/home/dev/project"%string = Normal None) by reflexivity.
  split; [exact H1|]. split; [exact H2|]. split; [exact H3|].
  exact (proj1 (proj2 (constructor_failure_cases no_pid Demo.notSet Demo.failed w))
               "/opt/stryker"%string "/home/dev/project"%string (conj H1 H2) H3).
Defined.

Example constructor_without_path :
  constructor Demo.spawn Demo.notSet Demo.failed
              (mkWorkspace None (Some 8080) (Some ["/home/dev/project"]))
  = (Throw (Error Demo.notSet), [logError Demo.notSet])
  /\ constructor Demo.spawn Demo.notSet Demo.failed
                 (mkWorkspace (Some "") (Some 8080) (Some ["/home/dev/project"]))
     = (Throw (Error Demo.notSet), [logError Demo.notSet]).
Proof. split; reflexivity. Qed.

Example constructor_without_pid :
  constructor (fun _ _ _ => Normal None) Demo.notSet Demo.failed
              (mkWorkspace (Some "/opt/stryker") (Some 8080) (Some ["/home/dev/project"]))
  = (Throw (Error Demo.failed),
     [logError
        ("[Mutation Server] Failed to start mutation server with executable path: "
         ++ "/opt/stryker and port: 8080"
         ++ ". These properties can be configured in the extension settings, then reload the window.")%string]).
Proof. reflexivity. Qed.

Example constructor_when_spawn_throws :
  constructor (fun _ _ _ => Throw (Error "spawn EPERM")) Demo.notSet Demo.failed
              (mkWorkspace (Some "/opt/stryker") (Some 8080) (Some ["/home/dev/project"]))
  = (Throw (Error "spawn EPERM"), []).
Proof. reflexivity. Qed.

Example constructor_without_open_folder :
  constructor Demo.spawn Demo.notSet Demo.failed
              (mkWorkspace (Some "/opt/stryker") (Some 8080) (Some []))
  = (Throw TypeError, []).
Proof. reflexivity. Qed.

Example constructor_with_pid :
  constructor
    (fun path args cwd =>
       if ((path =? "/opt/stryker") && (cwd =? "/home/dev/project"))%string
       then match args with
            | [flag; port] => if ((flag =? "--port") && (port =? "8080"))%string
                              then Normal (Some 4242) else Normal None
            | _ => Normal None
            end
       else Normal None)
    Demo.notSet Demo.failed
    (mkWorkspace (Some "/opt/stryker") (Some 8080) (Some ["/home/dev/project"]))
  = (Normal (mkServer [LogStdout] Pending None None [] []), []).
Proof. reflexivity. Qed.
